(** * ChatFlow: the client-side synchronization core, embedded in Rocq

    The development follows the TypeScript sources of the front end:

    - [frontend/src/types/chatTypes.ts], [types/userTypes.ts]: the records;
    - [frontend/src/stores/chatStore.ts], [stores/userStore.ts]: the two
      zustand stores, every action a pure function on the store state;
    - [frontend/src/api/socket.ts]: the [SocketAPI] class, as explicit
      state passing over its private fields plus a log of what was put
      on the wire;
    - [frontend/src/contexts/ChatContext.tsx]: the handlers registered for
      the inbound chat events and the outbound actions;
    - [frontend/src/hooks/useChat.ts], [utils/validators.ts]: the
      validating wrapper around [sendMessage];
    - the reducer-based chat context ([chatReducer], [joinRoom]) that keeps
      the per-room unread counters.

    JavaScript strings are modelled as [string] (one [ascii] per code unit),
    arrays as [list], objects used as dictionaries as [gmap string _],
    [T | null] and [T | undefined] as [option T]. *)

From Stdlib Require Import ZArith.
From stdpp Require Import base option list strings gmap.

Local Open Scope string_scope.
Local Open Scope list_scope.
Local Open Scope Z_scope.

(** ** JavaScript array helpers *)

Section js_array.
Context {A : Type}.

(** [Array.prototype.findIndex]: the index of the first element that
    satisfies [p], or [-1]. *)
Fixpoint findIndex_from (p : A → bool) (l : list A) (i : Z) : Z :=
  match l with
  | [] => -1
  | x :: l' => if p x then i else findIndex_from p l' (i + 1)
  end.

Definition findIndex (p : A → bool) (l : list A) : Z := findIndex_from p l 0.

(** [Array.prototype.find]: the first element that satisfies [p], or
    [undefined]. *)
Fixpoint find (p : A → bool) (l : list A) : option A :=
  match l with
  | [] => None
  | x :: l' => if p x then Some x else find p l'
  end.

(** [const copy = [...l]; copy[i] = x] for an index [i] that [findIndex]
    returned as non-negative (so it is in range). *)
Definition assign_index (l : list A) (i : Z) (x : A) : list A :=
  <[Z.to_nat i := x]> l.
End js_array.

(** ** Records of [types/chatTypes.ts] and [types/userTypes.ts] *)

Module Message.
Record t := mk {
  message_id : string;
  sender_id : string;
  content : string;
  room_id : string;
  message_type : string;
  timestamp : string;
  sender_username : string;
  read_by : list string;
  delivered_to : list string
}.

(** [Partial<Message>]: every field optional. *)
Record partial := mk_partial {
  p_message_id : option string;
  p_sender_id : option string;
  p_content : option string;
  p_room_id : option string;
  p_message_type : option string;
  p_timestamp : option string;
  p_sender_username : option string;
  p_read_by : option (list string);
  p_delivered_to : option (list string)
}.

Definition no_updates : partial :=
  mk_partial None None None None None None None None None.

(** The object literal [{ read_by: l }]. *)
Definition only_read_by (l : list string) : partial :=
  mk_partial None None None None None None None (Some l) None.

(** The object literal [{ delivered_to: l }]. *)
Definition only_delivered_to (l : list string) : partial :=
  mk_partial None None None None None None None None (Some l).

(** The spread [{ ...msg, ...updates }]. *)
Definition spread (msg : t) (u : partial) : t :=
  mk (default (message_id msg) (p_message_id u))
     (default (sender_id msg) (p_sender_id u))
     (default (content msg) (p_content u))
     (default (room_id msg) (p_room_id u))
     (default (message_type msg) (p_message_type u))
     (default (timestamp msg) (p_timestamp u))
     (default (sender_username msg) (p_sender_username u))
     (default (read_by msg) (p_read_by u))
     (default (delivered_to msg) (p_delivered_to u)).
End Message.

Module ChatRoom.
Record t := mk {
  room_id : string;
  name : string;
  room_type : string;
  created_at : string;
  last_activity : string;
  member_count : Z
}.
End ChatRoom.

Module TypingIndicator.
Record t := mk {
  user_id : string;
  room_id : string;
  username : string;
  is_typing : bool
}.

(** The pair the store identifies an entry by. *)
Definition key (u : t) : string * string := (user_id u, room_id u).
End TypingIndicator.

Module User.
Record t := mk {
  user_id : string;
  username : string;
  email : string;
  is_online : bool;
  last_seen : string
}.

(** [Partial<User>]. *)
Record partial := mk_partial {
  p_user_id : option string;
  p_username : option string;
  p_email : option string;
  p_is_online : option bool;
  p_last_seen : option string
}.

(** The spread [{ ...user, ...updates }]. *)
Definition spread (user : t) (u : partial) : t :=
  mk (default (user_id user) (p_user_id u))
     (default (username user) (p_username u))
     (default (email user) (p_email u))
     (default (is_online user) (p_is_online u))
     (default (last_seen user) (p_last_seen u)).
End User.

(** ** [stores/chatStore.ts] *)

Module ChatStore.
Record ChatState := mkState {
  messages : list Message.t;
  currentRoom : option ChatRoom.t;
  typingUsers : list TypingIndicator.t;
  isLoading : bool;
  error : option string
}.

Definition initialState : ChatState := mkState [] None [] false None.

Definition with_messages (ms : list Message.t) (s : ChatState) : ChatState :=
  mkState ms (currentRoom s) (typingUsers s) (isLoading s) (error s).

Definition with_typingUsers (tu : list TypingIndicator.t) (s : ChatState) : ChatState :=
  mkState (messages s) (currentRoom s) tu (isLoading s) (error s).

Definition with_error (e : option string) (s : ChatState) : ChatState :=
  mkState (messages s) (currentRoom s) (typingUsers s) (isLoading s) e.

Definition setMessages (ms : list Message.t) (s : ChatState) : ChatState :=
  with_messages ms s.

Definition addMessage (message : Message.t) (s : ChatState) : ChatState :=
  with_messages (message :: messages s) s.

Definition updateMessage (messageId : string) (updates : Message.partial)
    (s : ChatState) : ChatState :=
  with_messages
    ((λ msg, if String.eqb (Message.message_id msg) messageId
             then Message.spread msg updates else msg)
       <$> messages s)
    s.

Definition removeMessage (messageId : string) (s : ChatState) : ChatState :=
  with_messages
    (List.filter (λ msg, negb (String.eqb (Message.message_id msg) messageId))
                 (messages s))
    s.

Definition setCurrentRoom (room : option ChatRoom.t) (s : ChatState) : ChatState :=
  mkState (messages s) room (typingUsers s) (isLoading s) (error s).

Definition setTypingUsers (users : list TypingIndicator.t) (s : ChatState) : ChatState :=
  with_typingUsers users s.

(** The predicate both typing actions test entries with. *)
Definition same_typing_key (userId roomId : string) (u : TypingIndicator.t) : bool :=
  String.eqb (TypingIndicator.user_id u) userId
  && String.eqb (TypingIndicator.room_id u) roomId.

Definition addTypingUser (user : TypingIndicator.t) (s : ChatState) : ChatState :=
  let existingIndex :=
    findIndex (same_typing_key (TypingIndicator.user_id user)
                               (TypingIndicator.room_id user))
              (typingUsers s) in
  if 0 <=? existingIndex
  then with_typingUsers (assign_index (typingUsers s) existingIndex user) s
  else with_typingUsers (typingUsers s ++ [user]) s.

Definition removeTypingUser (userId roomId : string) (s : ChatState) : ChatState :=
  with_typingUsers
    (List.filter (λ user, negb (same_typing_key userId roomId user))
                 (typingUsers s))
    s.

Definition setLoading (b : bool) (s : ChatState) : ChatState :=
  mkState (messages s) (currentRoom s) (typingUsers s) b (error s).

Definition setError (e : option string) (s : ChatState) : ChatState :=
  with_error e s.

Definition clearError (s : ChatState) : ChatState := with_error None s.

Definition clearMessages (s : ChatState) : ChatState := with_messages [] s.

Definition clearTypingUsers (s : ChatState) : ChatState := with_typingUsers [] s.

Definition reset (_ : ChatState) : ChatState := initialState.
End ChatStore.

(** ** [stores/userStore.ts] *)

Module UserStore.
(** [UserProfile extends User]. *)
Record UserProfile := mkProfile {
  profile_user : User.t;
  typing_in : option string;
  socket_id : option string
}.

Record UserState := mkState {
  onlineUsers : list User.t;
  allUsers : list User.t;
  currentUser : option UserProfile;
  isLoading : bool;
  error : option string
}.

Definition initialState : UserState := mkState [] [] None false None.

Definition with_onlineUsers (us : list User.t) (s : UserState) : UserState :=
  mkState us (allUsers s) (currentUser s) (isLoading s) (error s).

Definition setOnlineUsers (users : list User.t) (s : UserState) : UserState :=
  with_onlineUsers users s.

Definition setAllUsers (users : list User.t) (s : UserState) : UserState :=
  mkState (onlineUsers s) users (currentUser s) (isLoading s) (error s).

Definition addOnlineUser (user : User.t) (s : UserState) : UserState :=
  let existingIndex :=
    findIndex (λ u, String.eqb (User.user_id u) (User.user_id user))
              (onlineUsers s) in
  if 0 <=? existingIndex
  then with_onlineUsers (assign_index (onlineUsers s) existingIndex user) s
  else with_onlineUsers (onlineUsers s ++ [user]) s.

Definition removeOnlineUser (userId : string) (s : UserState) : UserState :=
  with_onlineUsers
    (List.filter (λ user, negb (String.eqb (User.user_id user) userId))
                 (onlineUsers s))
    s.

Definition setCurrentUser (user : option UserProfile) (s : UserState) : UserState :=
  mkState (onlineUsers s) (allUsers s) user (isLoading s) (error s).

Definition patch (userId : string) (updates : User.partial) (user : User.t) : User.t :=
  if String.eqb (User.user_id user) userId then User.spread user updates else user.

Definition updateUser (userId : string) (updates : User.partial) (s : UserState) : UserState :=
  mkState (patch userId updates <$> onlineUsers s)
          (patch userId updates <$> allUsers s)
          (match currentUser s with
           | Some cu =>
               if String.eqb (User.user_id (profile_user cu)) userId
               then Some (mkProfile (User.spread (profile_user cu) updates)
                                    (typing_in cu) (socket_id cu))
               else Some cu
           | None => None
           end)
          (isLoading s) (error s).

Definition clearOnlineUsers (s : UserState) : UserState := with_onlineUsers [] s.

Definition reset (_ : UserState) : UserState := initialState.
End UserStore.

(** ** [api/socket.ts]: the [SocketAPI] singleton

    The object's private fields are the record [SocketAPI.t]. What
    socket.io is asked to do is recorded next to them: [transports] lists
    the sockets built by [io(...)], [wire] the [emit] calls made on a
    socket, in order. *)

Module SocketAPI.
Inductive Channel := Main | Chat.

(** A payload ([data: any]) is an object literal with scalar fields. *)
Inductive JSValue :=
| VStr (s : string)
| VNum (n : Z)
| VBool (b : bool).

Definition Payload := list (string * JSValue).

Record Emission := mkEmission {
  em_channel : Channel;
  em_event : string;
  em_data : Payload
}.

(** A socket.io [Socket]: its [connected] flag and the position of the
    [io(...)] call that built it. *)
Record Socket := mkSocket {
  connected : bool;
  built_by : nat
}.

Record ConnectionState := mkConn {
  isConnected : bool;
  isConnecting : bool;
  error : option string
}.

Record t := mk {
  socket : option Socket;
  chatSocket : option Socket;
  connectionState : ConnectionState;
  eventListeners : gmap string (list nat);
  heartbeatInterval : option nat;
  transports : list Channel;
  timers : nat;
  wire : list Emission
}.

Definition initial : t :=
  mk None None (mkConn false false None) ∅ None [] 0%nat [].

(** [s?.connected] as a condition: an absent socket is falsy. *)
Definition is_connected (s : option Socket) : bool :=
  match s with
  | Some so => connected so
  | None => false
  end.

Definition with_socket (so : option Socket) (a : t) : t :=
  mk so (chatSocket a) (connectionState a) (eventListeners a)
     (heartbeatInterval a) (transports a) (timers a) (wire a).

Definition with_chatSocket (so : option Socket) (a : t) : t :=
  mk (socket a) so (connectionState a) (eventListeners a)
     (heartbeatInterval a) (transports a) (timers a) (wire a).

Definition with_connectionState (c : ConnectionState) (a : t) : t :=
  mk (socket a) (chatSocket a) c (eventListeners a)
     (heartbeatInterval a) (transports a) (timers a) (wire a).

Definition with_heartbeat (h : option nat) (n : nat) (a : t) : t :=
  mk (socket a) (chatSocket a) (connectionState a) (eventListeners a)
     h (transports a) n (wire a).

Definition with_transports (l : list Channel) (a : t) : t :=
  mk (socket a) (chatSocket a) (connectionState a) (eventListeners a)
     (heartbeatInterval a) l (timers a) (wire a).

Definition with_wire (w : list Emission) (a : t) : t :=
  mk (socket a) (chatSocket a) (connectionState a) (eventListeners a)
     (heartbeatInterval a) (transports a) (timers a) w.

Definition set_isConnected (b : bool) (c : ConnectionState) : ConnectionState :=
  mkConn b (isConnecting c) (error c).

Definition set_isConnecting (b : bool) (c : ConnectionState) : ConnectionState :=
  mkConn (isConnected c) b (error c).

Definition set_error (e : option string) (c : ConnectionState) : ConnectionState :=
  mkConn (isConnected c) (isConnecting c) e.

Definition emit (event : string) (data : Payload) (a : t) : t :=
  if is_connected (socket a)
  then with_wire (wire a ++ [mkEmission Main event data]) a
  else a.

Definition emitToChat (event : string) (data : Payload) (a : t) : t :=
  if is_connected (chatSocket a)
  then with_wire (wire a ++ [mkEmission Chat event data]) a
  else a.

Definition stopHeartbeat (a : t) : t :=
  match heartbeatInterval a with
  | Some _ => with_heartbeat None (timers a) a
  | None => a
  end.

(** [setInterval] hands out a fresh timer handle. *)
Definition startHeartbeat (a : t) : t :=
  let a1 := stopHeartbeat a in
  with_heartbeat (Some (timers a1)) (S (timers a1)) a1.

(** One firing of the heartbeat interval's callback. *)
Definition heartbeat_tick (a : t) : t :=
  if is_connected (socket a) then emit "heartbeat" [] a else a.

(** The promise [connect()] returns. [resolve] and [reject] act on a
    pending promise only: a promise settles once. *)
Inductive Promise :=
| Pending
| Resolved
| Rejected (reason : string).

Definition resolve (p : Promise) : Promise :=
  match p with
  | Pending => Resolved
  | _ => p
  end.

Definition reject (reason : string) (p : Promise) : Promise :=
  match p with
  | Pending => Rejected reason
  | _ => p
  end.

Definition settled (p : Promise) : bool :=
  match p with
  | Pending => false
  | _ => true
  end.

(** The executor of [connect()], run synchronously by [new Promise]. On
    the early return no handler is registered; otherwise the four
    handlers of [on_transport] are attached to the new socket. *)
Definition connect (a : t) : t * Promise :=
  if is_connected (socket a)
  then (a, resolve Pending)
  else
    let a1 := with_connectionState (set_isConnecting true (connectionState a)) a in
    let a2 := with_connectionState (set_error None (connectionState a1)) a1 in
    let a3 := with_socket (Some (mkSocket false (length (transports a2))))
                (with_transports (transports a2 ++ [Main]) a2) in
    (a3, Pending).

(** What socket.io reports on the main socket after [connect()]. *)
Inductive TransportEvent :=
| TConnect
| TDisconnect
| TError (message : string)
| TConnectError (message : string).

(** socket.io flips the socket's [connected] flag before it fires
    [connect] or [disconnect]. *)
Definition set_socket_connected (b : bool) (a : t) : t :=
  match socket a with
  | Some so => with_socket (Some (mkSocket b (built_by so))) a
  | None => a
  end.

(** The handlers [connect()] attached, run on one event of the socket it
    built, with the promise of that call. *)
Definition on_transport (ev : TransportEvent) (st : t * Promise) : t * Promise :=
  let '(a, p) := st in
  match ev with
  | TConnect =>
      let a0 := set_socket_connected true a in
      let a1 := with_connectionState (set_isConnected true (connectionState a0)) a0 in
      let a2 := with_connectionState (set_isConnecting false (connectionState a1)) a1 in
      let a3 := startHeartbeat a2 in
      let a4 := emit "connected" [] a3 in
      (a4, resolve p)
  | TDisconnect =>
      let a0 := set_socket_connected false a in
      let a1 := with_connectionState (set_isConnected false (connectionState a0)) a0 in
      let a2 := with_connectionState (set_isConnecting false (connectionState a1)) a1 in
      let a3 := stopHeartbeat a2 in
      let a4 := emit "disconnected" [] a3 in
      (a4, p)
  | TError message =>
      let a1 := with_connectionState (set_error (Some message) (connectionState a)) a in
      let a2 := emit "error" [("message", VStr message)] a1 in
      (a2, reject message p)
  | TConnectError message =>
      let a1 := with_connectionState (set_error (Some message) (connectionState a)) a in
      let a2 := with_connectionState (set_isConnecting false (connectionState a1)) a1 in
      let a3 := emit "error" [("message", VStr message)] a2 in
      (a3, reject message p)
  end.

Definition run_transport (evs : list TransportEvent) (st : t * Promise) : t * Promise :=
  fold_left (λ acc ev, on_transport ev acc) evs st.

Definition connectToChat (a : t) : t * Promise :=
  if is_connected (chatSocket a)
  then (a, resolve Pending)
  else
    (with_chatSocket (Some (mkSocket false (length (transports a))))
       (with_transports (transports a ++ [Chat]) a),
     Pending).

Definition set_chatSocket_connected (b : bool) (a : t) : t :=
  match chatSocket a with
  | Some so => with_chatSocket (Some (mkSocket b (built_by so))) a
  | None => a
  end.

(** The three handlers [connectToChat()] attached, run on one event of
    the chat socket; it has none for [connect_error]. *)
Definition on_chat_transport (ev : TransportEvent) (st : t * Promise) : t * Promise :=
  let '(a, p) := st in
  match ev with
  | TConnect =>
      (emit "chat_connected" [] (set_chatSocket_connected true a), resolve p)
  | TDisconnect =>
      (emit "chat_disconnected" [] (set_chatSocket_connected false a), p)
  | TError message =>
      (emit "error" [("message", VStr message)] a, reject message p)
  | TConnectError _ => (a, p)
  end.

Definition disconnect (a : t) : t :=
  let a1 := match socket a with Some _ => with_socket None a | None => a end in
  let a2 := match chatSocket a1 with Some _ => with_chatSocket None a1 | None => a1 end in
  let a3 := stopHeartbeat a2 in
  let a4 := with_connectionState (set_isConnected false (connectionState a3)) a3 in
  with_connectionState (set_isConnecting false (connectionState a4)) a4.

Definition joinRoom (roomId : string) (a : t) : t :=
  emitToChat "join_room" [("room_id", VStr roomId)] a.

Definition leaveRoom (roomId : string) (a : t) : t :=
  emitToChat "leave_room" [("room_id", VStr roomId)] a.

(** [messageType: string = 'text']: an omitted argument takes the default. *)
Definition sendMessage (content roomId : string) (messageType : option string) (a : t) : t :=
  emitToChat "send_message"
    [("content", VStr content);
     ("room_id", VStr roomId);
     ("message_type", VStr (default "text" messageType))] a.

Definition markMessageRead (messageId : string) (a : t) : t :=
  emitToChat "mark_read" [("message_id", VStr messageId)] a.

Definition markMessageDelivered (messageId : string) (a : t) : t :=
  emitToChat "mark_delivered" [("message_id", VStr messageId)] a.

Definition startTyping (roomId : string) (a : t) : t :=
  emitToChat "typing_start" [("room_id", VStr roomId)] a.

Definition stopTyping (roomId : string) (a : t) : t :=
  emitToChat "typing_stop" [("room_id", VStr roomId)] a.

(** The remaining request methods. *)
Definition authenticate (token : string) (a : t) : t :=
  emit "authenticate" [("token", VStr token)] a.

Definition register (username email password : string) (a : t) : t :=
  emit "register"
    [("username", VStr username); ("email", VStr email); ("password", VStr password)] a.

Definition login (username password : string) (a : t) : t :=
  emit "login" [("username", VStr username); ("password", VStr password)] a.

Definition logout (a : t) : t := emit "logout" [] a.

(** [limit: number = 50, offset: number = 0] *)
Definition getMessages (roomId : string) (limit offset : option Z) (a : t) : t :=
  emitToChat "get_messages"
    [("room_id", VStr roomId);
     ("limit", VNum (default 50 limit));
     ("offset", VNum (default 0 offset))] a.

Definition getTypingUsers (roomId : string) (a : t) : t :=
  emitToChat "get_typing_users" [("room_id", VStr roomId)] a.

Definition getOnlineUsers (a : t) : t := emitToChat "get_online_users" [] a.

Definition getAllUsers (a : t) : t := emitToChat "get_all_users" [] a.

Definition getUserProfile (userId : string) (a : t) : t :=
  emitToChat "get_user_profile" [("target_user_id", VStr userId)] a.

Definition searchUsers (query : string) (a : t) : t :=
  emitToChat "search_users" [("query", VStr query)] a.

Definition getUserStatistics (a : t) : t := emitToChat "get_user_statistics" [] a.

(** [roomType: string = 'public'] *)
Definition createRoom (name : string) (roomType : option string) (a : t) : t :=
  emitToChat "create_room"
    [("room_name", VStr name); ("room_type", VStr (default "public" roomType))] a.

Definition getRooms (a : t) : t := emitToChat "get_rooms" [] a.

Definition updatePresence (a : t) : t := emitToChat "update_presence" [] a.

Definition setTypingStatus (roomId : string) (isTyping : bool) (a : t) : t :=
  emitToChat "set_typing_status"
    [("room_id", VStr roomId); ("is_typing", VBool isTyping)] a.

(** What can happen to the singleton, one step at a time. A transport
    event is an event of the socket the singleton holds at that moment;
    with no socket there is nobody to report one. *)
Inductive op :=
| Connect
| ConnectToChat
| Disconnect
| Transport (ev : TransportEvent)
| ChatTransport (ev : TransportEvent)
| Emit (event : string) (data : Payload)
| EmitToChat (event : string) (data : Payload)
| HeartbeatTick.

Definition apply (o : op) (a : t) : t :=
  match o with
  | Connect => fst (connect a)
  | ConnectToChat => fst (connectToChat a)
  | Disconnect => disconnect a
  | Transport ev =>
      match socket a with
      | Some _ => fst (on_transport ev (a, Pending))
      | None => a
      end
  | ChatTransport ev =>
      match chatSocket a with
      | Some _ => fst (on_chat_transport ev (a, Pending))
      | None => a
      end
  | Emit event data => emit event data a
  | EmitToChat event data => emitToChat event data a
  | HeartbeatTick =>
      match heartbeatInterval a with
      | Some _ => heartbeat_tick a
      | None => a
      end
  end.

Definition run (ops : list op) (a : t) : t :=
  fold_left (λ acc o, apply o acc) ops a.

(** The published flag agrees with the main socket, the heartbeat
    interval runs exactly while that socket is connected, and a
    connected singleton is not connecting. *)
Definition coherent (a : t) : Prop :=
  isConnected (connectionState a) = is_connected (socket a) ∧
  bool_decide (is_Some (heartbeatInterval a)) = is_connected (socket a) ∧
  (isConnected (connectionState a) = true → isConnecting (connectionState a) = false).
End SocketAPI.

(** ** [utils/constants.ts] *)

Module Constants.
Definition HEARTBEAT_INTERVAL : Z := 30000.
Definition TYPING_TIMEOUT : Z := 5000.
Definition MESSAGE_LIMIT : Z := 50.
End Constants.

(** ** [utils/validators.ts] *)

Module Validators.
Record ValidationResult := mkResult {
  isValid : bool;
  errors : list string
}.

(** The white space [String.prototype.trim] strips, among the code units
    an [ascii] can hold: TAB, LF, VT, FF, CR, SPACE and NBSP. *)
Definition is_white_space (c : Ascii.ascii) : bool :=
  let n := Z.of_nat (Ascii.nat_of_ascii c) in
  ((9 <=? n) && (n <=? 13)) || (n =? 32) || (n =? 160).

Fixpoint drop_white_space (l : list Ascii.ascii) : list Ascii.ascii :=
  match l with
  | [] => []
  | c :: l' => if is_white_space c then drop_white_space l' else l
  end.

Definition trim (s : string) : string :=
  String.string_of_list_ascii
    (rev (drop_white_space (rev (drop_white_space (String.list_ascii_of_string s))))).

(** [s.length]. *)
Definition js_length (s : string) : Z := Z.of_nat (String.length s).

(** [!content]: of all strings only the empty one is falsy. *)
Definition falsy (s : string) : bool := String.eqb s "".

Definition validateMessage (content : string) : ValidationResult :=
  let errors0 : list string := [] in
  let errors1 :=
    if falsy content || (js_length (trim content) =? 0)
    then errors0 ++ ["Message cannot be empty"] else errors0 in
  let errors2 :=
    if 1000 <? js_length content
    then errors1 ++ ["Message is too long (max 1000 characters)"] else errors1 in
  mkResult (Z.of_nat (length errors2) =? 0) errors2.

(** [s.replace(/[<>]/g, '')] *)
Definition is_angle (c : Ascii.ascii) : bool :=
  let n := Z.of_nat (Ascii.nat_of_ascii c) in (n =? 60) || (n =? 62).

Definition remove_angles (s : string) : string :=
  String.string_of_list_ascii
    (List.filter (λ c, negb (is_angle c)) (String.list_ascii_of_string s)).

Definition sanitizeInput (input : string) : string :=
  if falsy input then "" else remove_angles (trim input).

(** The class [[a-zA-Z0-9\s-_]] of the room-name pattern: letters,
    digits, white space, the hyphen and the underscore. *)
Definition is_room_name_char (c : Ascii.ascii) : bool :=
  let n := Z.of_nat (Ascii.nat_of_ascii c) in
  ((97 <=? n) && (n <=? 122)) || ((65 <=? n) && (n <=? 90))
  || ((48 <=? n) && (n <=? 57)) || is_white_space c || (n =? 45) || (n =? 95).

(** [/^[a-zA-Z0-9\s-_]+$/.test(name)] *)
Definition room_name_pattern (name : string) : bool :=
  negb (falsy name) && forallb is_room_name_char (String.list_ascii_of_string name).

Definition blank (s : string) : bool := falsy s || (js_length (trim s) =? 0).

Definition push_if (c : bool) (e : string) (errors : list string) : list string :=
  if c then errors ++ [e] else errors.

Definition result_of (errors : list string) : ValidationResult :=
  mkResult (Z.of_nat (length errors) =? 0) errors.

Definition validateRoomName (name : string) : ValidationResult :=
  let e1 := push_if (blank name) "Room name cannot be empty" [] in
  let e2 := push_if (50 <? js_length name) "Room name is too long (max 50 characters)" e1 in
  let e3 := push_if (negb (room_name_pattern name)) "Room name contains invalid characters" e2 in
  result_of e3.

Definition validateLoginForm (username password : string) : ValidationResult :=
  let e1 := push_if (blank username) "Username is required" [] in
  let e2 := push_if (falsy password || (js_length password =? 0)) "Password is required" e1 in
  let e3 := push_if (js_length password <? 6) "Password must be at least 6 characters" e2 in
  result_of e3.

Definition validateSearchQuery (query : string) : ValidationResult :=
  let e1 := push_if (blank query) "Search query is required" [] in
  let e2 := push_if (js_length query <? 2) "Search query must be at least 2 characters" e1 in
  result_of e2.

Definition validateRoomId (roomId : string) : ValidationResult :=
  result_of (push_if (blank roomId) "Room ID is required" []).

Definition validateUserId (userId : string) : ValidationResult :=
  result_of (push_if (blank userId) "User ID is required" []).
End Validators.

(** ** [contexts/ChatContext.tsx] *)

Module ChatContext.
(** [AuthUser], what [useAuth().user] holds when somebody is logged in. *)
Record AuthUser := mkAuthUser {
  au_user_id : string;
  au_username : string;
  au_email : string;
  au_token : string
}.

(** [MessageReceipt], the payload of [message_read] and
    [message_delivered]. *)
Record MessageReceipt := mkReceipt {
  message_id : string;
  user_id : string;
  timestamp : string
}.

(** The events of the chat channel, each with the payload its listener in
    [chatAPI.ts] declares. For [user_offline] the handler's [data: any]
    is given the user id it reads and the last-seen time the server
    sends along. *)
Inductive ChatEvent :=
| new_message (message : Message.t)
| message_sent (message_id timestamp : string)
| message_read (data : MessageReceipt)
| message_delivered (data : MessageReceipt)
| room_messages (messages : list Message.t)
| joined_room (room_id : string)
| left_room (room_id : string)
| user_joined_room (user_id room_id username : string)
| user_left_room (user_id room_id username : string)
| user_typing (user_id room_id username : string) (is_typing : bool)
| typing_users (room_id : string) (users : list string)
| room_created (room : ChatRoom.t)
| available_rooms (rooms : list ChatRoom.t)
| online_users (users : list User.t)
| all_users (users : list User.t)
| user_online (user : User.t)
| user_offline (user_id last_seen : string)
| error (message : string).

(** The two zustand stores the provider reads and writes. *)
Record Stores := mkStores {
  chat : ChatStore.ChatState;
  users : UserStore.UserState
}.

Definition initialStores : Stores :=
  mkStores ChatStore.initialState UserStore.initialState.

Definition on_chat (f : ChatStore.ChatState → ChatStore.ChatState) (s : Stores) : Stores :=
  mkStores (f (chat s)) (users s).

Definition on_users (f : UserStore.UserState → UserStore.UserState) (s : Stores) : Stores :=
  mkStores (chat s) (f (users s)).

(** [messages.find(m => m.message_id === id)?.read_by || []] *)
Definition found_read_by (messages : list Message.t) (id : string) : list string :=
  match find (λ m, String.eqb (Message.message_id m) id) messages with
  | Some m => Message.read_by m
  | None => []
  end.

(** [messages.find(m => m.message_id === id)?.delivered_to || []] *)
Definition found_delivered_to (messages : list Message.t) (id : string) : list string :=
  match find (λ m, String.eqb (Message.message_id m) id) messages with
  | Some m => Message.delivered_to m
  | None => []
  end.

Definition handleNewMessage (message : Message.t) : Stores → Stores :=
  on_chat (ChatStore.addMessage message).

(** The handlers are closures built inside the provider's effect. The
    name [messages] in their bodies is the constant that the render which
    ran the effect destructured from the store; it is an argument here. *)
Definition handleMessageRead (messages : list Message.t) (data : MessageReceipt)
    : Stores → Stores :=
  on_chat (ChatStore.updateMessage (message_id data)
             (Message.only_read_by
                (found_read_by messages (message_id data) ++ [user_id data]))).

Definition handleMessageDelivered (messages : list Message.t) (data : MessageReceipt)
    : Stores → Stores :=
  on_chat (ChatStore.updateMessage (message_id data)
             (Message.only_delivered_to
                (found_delivered_to messages (message_id data) ++ [user_id data]))).

Definition handleRoomMessages (messages : list Message.t) : Stores → Stores :=
  on_chat (ChatStore.setMessages messages).

Definition handleUserTyping (user_id room_id username : string) (is_typing : bool)
    : Stores → Stores :=
  let typingUser := TypingIndicator.mk user_id room_id username is_typing in
  if is_typing
  then on_chat (ChatStore.addTypingUser typingUser)
  else on_chat (ChatStore.removeTypingUser user_id room_id).

Definition handleOnlineUsers (users : list User.t) : Stores → Stores :=
  on_users (UserStore.setOnlineUsers users).

Definition handleAllUsers (users : list User.t) : Stores → Stores :=
  on_users (UserStore.setAllUsers users).

Definition handleUserOnline (data : User.t) : Stores → Stores :=
  on_users (UserStore.addOnlineUser data).

Definition handleUserOffline (user_id : string) : Stores → Stores :=
  on_users (UserStore.removeOnlineUser user_id).

Definition handleError (message : string) : Stores → Stores :=
  on_chat (ChatStore.setError (Some message)).

(** The handler the effect defines for an event, run on that event.
    The handlers of [joined_room], [left_room], [user_joined_room],
    [user_left_room], [typing_users], [room_created] and
    [available_rooms] have empty bodies; for [message_sent] the effect
    defines none. *)
Definition handle (messages : list Message.t) (ev : ChatEvent) (s : Stores) : Stores :=
  match ev with
  | new_message message => handleNewMessage message s
  | message_sent _ _ => s
  | message_read data => handleMessageRead messages data s
  | message_delivered data => handleMessageDelivered messages data s
  | room_messages ms => handleRoomMessages ms s
  | joined_room _ => s
  | left_room _ => s
  | user_joined_room _ _ _ => s
  | user_left_room _ _ _ => s
  | user_typing u r n b => handleUserTyping u r n b s
  | typing_users _ _ => s
  | room_created _ => s
  | available_rooms _ => s
  | online_users us => handleOnlineUsers us s
  | all_users us => handleAllUsers us s
  | user_online u => handleUserOnline u s
  | user_offline u _ => handleUserOffline u s
  | error message => handleError message s
  end.

(** The name an event has on the wire. *)
Definition event_name (ev : ChatEvent) : string :=
  match ev with
  | new_message _ => "new_message"
  | message_sent _ _ => "message_sent"
  | message_read _ => "message_read"
  | message_delivered _ => "message_delivered"
  | room_messages _ => "room_messages"
  | joined_room _ => "joined_room"
  | left_room _ => "left_room"
  | user_joined_room _ _ _ => "user_joined_room"
  | user_left_room _ _ _ => "user_left_room"
  | user_typing _ _ _ _ => "user_typing"
  | typing_users _ _ => "typing_users"
  | room_created _ => "room_created"
  | available_rooms _ => "available_rooms"
  | online_users _ => "online_users"
  | all_users _ => "all_users"
  | user_online _ => "user_online"
  | user_offline _ _ => "user_offline"
  | error _ => "error"
  end.

(** Whether the effect has subscribed a listener for the event. It
    subscribes thirteen through [chatAPI.onNewMessage] ...
    [chatAPI.onError]; it makes no call for [message_sent]; and its next
    call, [chatAPI.onOnlineUsers], is on a method the class [ChatAPI]
    does not declare, so the effect ends there and the listeners for
    [online_users], [all_users], [user_online] and [user_offline] are
    never subscribed. *)
Definition subscribed (ev : ChatEvent) : bool :=
  match ev with
  | message_sent _ _ => false
  | online_users _ | all_users _ | user_online _ | user_offline _ _ => false
  | _ => true
  end.

(** One inbound event: it runs the handler of a subscribed listener and
    passes by otherwise. *)
Definition deliver (messages : list Message.t) (ev : ChatEvent) (s : Stores) : Stores :=
  if subscribed ev then handle messages ev s else s.

(** The effect's dependencies are [isAuthenticated], [isConnected] and
    [user]: while those stay the same the listeners registered at stores
    [s0] keep serving every event, with [messages] bound to the ledger of
    [s0]. *)
Definition run_registered (s0 : Stores) (evs : list ChatEvent) : Stores :=
  fold_left (λ s ev, deliver (ChatStore.messages (chat s0)) ev s) evs s0.

(** Events as they arrive over time (milliseconds). The stores change on
    an event and at no other moment. *)
Definition arrived_by (now : Z) (trace : list (Z * ChatEvent)) : list ChatEvent :=
  snd <$> List.filter (λ te, fst te <=? now) trace.

Definition stores_at (now : Z) (s0 : Stores) (trace : list (Z * ChatEvent)) : Stores :=
  run_registered s0 (arrived_by now trace).

(** The client: both stores and the socket singleton. *)
Record World := mkWorld {
  stores : Stores;
  api : SocketAPI.t
}.

Definition on_api (f : SocketAPI.t → SocketAPI.t) (w : World) : World :=
  mkWorld (stores w) (f (api w)).

Definition on_stores (f : Stores → Stores) (w : World) : World :=
  mkWorld (f (stores w)) (api w).

(** [sendMessage], through [chatAPI.sendMessage] down to
    [socketAPI.sendMessage]. *)
Definition sendMessage (user : option AuthUser) (content roomId : string)
    (messageType : option string) (w : World) : World :=
  match user with
  | None => w
  | Some _ =>
      on_api (SocketAPI.sendMessage content roomId (Some (default "text" messageType))) w
  end.

Definition joinRoom (user : option AuthUser) (roomId : string) (w : World) : World :=
  match user with
  | None => w
  | Some _ => on_api (SocketAPI.joinRoom roomId) w
  end.

Definition startTyping (user : option AuthUser) (roomId : string) (w : World) : World :=
  match user with
  | None => w
  | Some _ => on_api (SocketAPI.startTyping roomId) w
  end.

Definition stopTyping (user : option AuthUser) (roomId : string) (w : World) : World :=
  match user with
  | None => w
  | Some _ => on_api (SocketAPI.stopTyping roomId) w
  end.

Definition clearError (w : World) : World :=
  on_stores (on_chat ChatStore.clearError) w.

(** The property names of the object the provider passes down as
    [value]. *)
Definition value_keys : list string :=
  ["messages"; "currentRoom"; "typingUsers"; "isLoading"; "error";
   "onlineUsers"; "allUsers"; "sendMessage"; "joinRoom"; "leaveRoom";
   "createRoom"; "getMessages"; "markMessageRead"; "markMessageDelivered";
   "startTyping"; "stopTyping"; "getOnlineUsers"; "getAllUsers";
   "getUserProfile"; "searchUsers"; "getUserStatistics"; "getRooms";
   "updatePresence"; "setTypingStatus"; "clearError"; "clearMessages";
   "clearTypingUsers"; "reset"].

Definition has_property (name : string) : bool :=
  existsb (String.eqb name) value_keys.
End ChatContext.

(** ** [hooks/useChat.ts] *)

Module UseChat.
(** How a call ends: it returns, or a [TypeError] leaves it. *)
Inductive Completion :=
| Returned
| TypeError (message : string).

(** [chatContext.m(...)]: reading a property the context object does not
    have gives [undefined], and calling that throws. *)
Definition call_method (name : string)
    (body : ChatContext.World → ChatContext.World)
    (w : ChatContext.World) : ChatContext.World * Completion :=
  if ChatContext.has_property name
  then (body w, Returned)
  else (w, TypeError ("chatContext." +:+ name +:+ " is not a function")).

Definition sendMessage (user : option ChatContext.AuthUser) (content roomId : string)
    (messageType : option string) (w : ChatContext.World)
    : ChatContext.World * Completion :=
  match user with
  | None => (w, Returned)
  | Some _ =>
      let validation := Validators.validateMessage content in
      if negb (Validators.isValid validation)
      then
        call_method "setError"
          (ChatContext.on_stores
             (ChatContext.on_chat
                (ChatStore.setError (Validators.errors validation !! 0%nat))))
          w
      else
        match call_method "sendMessage"
                (ChatContext.sendMessage user content roomId
                   (Some (default "text" messageType))) w with
        | (w1, Returned) => call_method "clearError" ChatContext.clearError w1
        | thrown => thrown
        end
  end.
End UseChat.

(** ** The reducer-based chat provider ([chatReducer], [ChatProvider]) *)

Module ChatProvider.
(** Modelled from the spec: the declarations of [Message], [Room],
    [ChatState] and [ChatAction] that this provider imports from its
    [types/chatTypes] are not among the sources. A message has an id, a
    room id, a sender id, content and a creation timestamp; a room has an
    id, a display name, a visibility and a last-activity timestamp, and
    here also the [lastMessage] the provider writes into it. *)
Record Message := mkMessage {
  id : string;
  roomId : string;
  senderId : string;
  content : string;
  createdAt : string
}.

(** Modelled from the spec: see [Message]. *)
Record Room := mkRoom {
  room_id : string;
  name : string;
  isPrivate : bool;
  lastMessage : option Message;
  lastActivity : string
}.

(** What [state.activeRoom] may hold besides [null]: [joinRoom]
    dispatches the room id itself, while the reducer reads
    [state.activeRoom?.id] as of a room object. *)
Inductive ActiveRoom :=
| ActiveId (roomId : string)
| ActiveObject (room : Room).

(** How a reducer call, and with it a dispatch, ends: with a value or
    with an exception, of which the error's name is kept. The reducer
    runs when React renders the provider; an exception there takes the
    provider down. *)
Inductive Outcome (A : Type) :=
| Done (a : A)
| Thrown (name : string).

Arguments Done {A} a.
Arguments Thrown {A} name.

(** The dictionaries of the state ([messages], [typingUsers],
    [unreadCounts], [lastReadTimestamps]) are plain objects: a [gmap]
    holds their own properties, and a key they do not hold is still
    found when [Object.prototype] has a property of that name. *)
Definition object_prototype_properties : list string :=
  ["constructor"; "__proto__"; "__defineGetter__"; "__defineSetter__";
   "__lookupGetter__"; "__lookupSetter__"; "hasOwnProperty"; "isPrototypeOf";
   "propertyIsEnumerable"; "toLocaleString"; "toString"; "valueOf"].

Definition inherited (key : string) : bool :=
  existsb (String.eqb key) object_prototype_properties.

(** What [o[key]] gives: the object's own value, a function or object
    inherited from [Object.prototype], or [undefined]. *)
Inductive Property (V : Type) :=
| Own (v : V)
| Inherited
| Undefined.

Arguments Own {V} v.
Arguments Inherited {V}.
Arguments Undefined {V}.

Definition get {V : Type} (o : gmap string V) (key : string) : Property V :=
  match o !! key with
  | Some v => Own v
  | None => if inherited key then Inherited else Undefined
  end.

(** A value of [unreadCounts]. The numbers the provider writes are
    doubles holding integers; [Number n] is the double of value [n].
    [Text key ones] is the string that the property inherited under
    [key] turns into when [1] is added to it, with [ones] characters
    [1] at its end. *)
Inductive Count :=
| Number (n : Z)
| Text (key : string) (ones : nat).

(** [n + 1] on doubles: exact while the sum is at most [2^53] in absolute
    value, rounded to the nearest double, ties to the even one,
    beyond. *)
Definition js_succ (n : Z) : Z :=
  let m := n + 1 in
  if Z.abs m <=? 2 ^ 53 then m
  else
    let ulp := 2 ^ (Z.log2 (Z.abs m) - 52) in
    let q := m / ulp in
    let r := m mod ulp in
    if 2 * r <? ulp then q * ulp
    else if ulp <? 2 * r then (q + 1) * ulp
    else if Z.even q then q * ulp else (q + 1) * ulp.

(** [(unreadCounts[roomId] || 0) + 1]: [0] stands in for a missing
    count and for the count [0]; a string is truthy and gets a [1]
    appended, as does an inherited function or object once it has been
    turned into a string. *)
Definition plus_one (roomId : string) (found : Property Count) : Count :=
  match found with
  | Own (Number n) => Number (js_succ n)
  | Own (Text key ones) => Text key (S ones)
  | Inherited => Text roomId 1
  | Undefined => Number (js_succ 0)
  end.

Record ChatState := mkState {
  activeRoom : option ActiveRoom;
  rooms : list Room;
  messages : gmap string (list Message);
  typingUsers : gmap string (list string);
  onlineUsers : gset string;
  unreadCounts : gmap string Count;
  lastReadTimestamps : gmap string string
}.

Definition initialState : ChatState := mkState None [] ∅ ∅ ∅ ∅ ∅.

Inductive ChatAction :=
| SET_ACTIVE_ROOM (payload : option ActiveRoom)
| SET_ROOMS (payload : list Room)
| ADD_ROOM (payload : Room)
| UPDATE_ROOM (payload : Room)
| SET_MESSAGES (roomId : string) (messages : list Message)
| ADD_MESSAGE (roomId : string) (message : Message)
| SET_TYPING_USERS (roomId : string) (users : list string)
| SET_ONLINE_USERS (payload : list string)
| UPDATE_UNREAD_COUNTS (roomId : string) (count : Z)
| MARK_ROOM_READ (payload : string).

(** [state.activeRoom?.id]: [undefined] for [null] and for a string,
    which has no such property. *)
Definition activeRoom_id (a : option ActiveRoom) : option string :=
  match a with
  | Some (ActiveObject room) => Some (room_id room)
  | Some (ActiveId _) => None
  | None => None
  end.

(** [x !== roomId] for [x] a string or [undefined]. *)
Definition strict_ne (x : option string) (roomId : string) : bool :=
  match x with
  | Some i => negb (String.eqb i roomId)
  | None => true
  end.

(** [{ ...room, ...payload }] for a payload that is a room itself: the
    payload's fields win, an absent [lastMessage] keeps the old one. *)
Definition spread_room (room payload : Room) : Room :=
  mkRoom (room_id payload) (name payload) (isPrivate payload)
         (match lastMessage payload with
          | Some m => Some m
          | None => lastMessage room
          end)
         (lastActivity payload).

(** The reducer. [now] stands for [new Date().toISOString()], which
    [MARK_ROOM_READ] reads from the clock. In [ADD_MESSAGE] the new
    ledger [[...(state.messages[roomId] || []), message]] is built
    first: spreading an inherited function or object, which is truthy
    and not iterable, throws. *)
Definition chatReducer (now : string) (state : ChatState) (action : ChatAction)
    : Outcome ChatState :=
  match action with
  | SET_ACTIVE_ROOM payload =>
      Done (mkState payload (rooms state) (messages state) (typingUsers state)
              (onlineUsers state) (unreadCounts state) (lastReadTimestamps state))
  | SET_ROOMS payload =>
      Done (mkState (activeRoom state) payload (messages state) (typingUsers state)
              (onlineUsers state) (unreadCounts state) (lastReadTimestamps state))
  | ADD_ROOM payload =>
      Done (mkState (activeRoom state) (rooms state ++ [payload]) (messages state)
              (typingUsers state) (onlineUsers state) (unreadCounts state)
              (lastReadTimestamps state))
  | UPDATE_ROOM payload =>
      Done (mkState (activeRoom state)
              ((λ room, if String.eqb (room_id room) (room_id payload)
                        then spread_room room payload else room)
                 <$> rooms state)
              (messages state) (typingUsers state) (onlineUsers state)
              (unreadCounts state) (lastReadTimestamps state))
  | SET_MESSAGES roomId ms =>
      Done (mkState (activeRoom state) (rooms state) (<[roomId := ms]> (messages state))
              (typingUsers state) (onlineUsers state) (unreadCounts state)
              (lastReadTimestamps state))
  | ADD_MESSAGE roomId message =>
      match get (messages state) roomId with
      | Inherited => Thrown "TypeError"
      | found =>
          let earlier := match found with Own l => l | _ => [] end in
          Done (mkState (activeRoom state) (rooms state)
                  (<[roomId := earlier ++ [message]]> (messages state))
                  (typingUsers state) (onlineUsers state)
                  (<[roomId := if strict_ne (activeRoom_id (activeRoom state)) roomId
                               then plus_one roomId (get (unreadCounts state) roomId)
                               else Number 0]>
                     (unreadCounts state))
                  (lastReadTimestamps state))
      end
  | SET_TYPING_USERS roomId us =>
      Done (mkState (activeRoom state) (rooms state) (messages state)
              (<[roomId := us]> (typingUsers state)) (onlineUsers state)
              (unreadCounts state) (lastReadTimestamps state))
  | SET_ONLINE_USERS payload =>
      Done (mkState (activeRoom state) (rooms state) (messages state) (typingUsers state)
              (list_to_set payload) (unreadCounts state) (lastReadTimestamps state))
  | UPDATE_UNREAD_COUNTS roomId count =>
      Done (mkState (activeRoom state) (rooms state) (messages state) (typingUsers state)
              (onlineUsers state) (<[roomId := Number count]> (unreadCounts state))
              (lastReadTimestamps state))
  | MARK_ROOM_READ payload =>
      Done (mkState (activeRoom state) (rooms state) (messages state) (typingUsers state)
              (onlineUsers state) (<[payload := Number 0]> (unreadCounts state))
              (<[payload := now]> (lastReadTimestamps state)))
  end.

(** The provider: the reducer state and what was emitted on its socket. *)
Record Provider := mkProvider {
  state : ChatState;
  emitted : list (string * SocketAPI.Payload)
}.

Definition dispatch (now : string) (action : ChatAction) (p : Provider) : Outcome Provider :=
  match chatReducer now (state p) action with
  | Done st => Done (mkProvider st (emitted p))
  | Thrown e => Thrown e
  end.

(** One dispatch after another: the second is not reached when the
    first has thrown. *)
Definition and_then (o : Outcome Provider) (f : Provider → Outcome Provider)
    : Outcome Provider :=
  match o with
  | Done p => f p
  | Thrown e => Thrown e
  end.

(** The listener for [message:new]: it always dispatches [ADD_MESSAGE],
    and [UPDATE_ROOM] when the room is among the [state.rooms] it sees. *)
Definition on_message_new (now : string) (message : Message) (p : Provider)
    : Outcome Provider :=
  and_then (dispatch now (ADD_MESSAGE (roomId message) message) p)
    (λ p1,
       match find (λ r, String.eqb (room_id r) (roomId message)) (rooms (state p)) with
       | Some room =>
           dispatch now
             (UPDATE_ROOM (mkRoom (room_id room) (name room) (isPrivate room)
                                  (Some message) now))
             p1
       | None => Done p1
       end).

(** [joinRoom]: [socket] and [user] are what [useSocket()] and
    [useAuth()] hold, [None] for [null]. *)
Definition joinRoom (socket : option unit) (user : option string) (now : string)
    (roomId : string) (p : Provider) : Outcome Provider :=
  match socket, user with
  | Some _, Some _ =>
      let p1 := mkProvider (state p)
                  (emitted p ++ [("room:join", [("roomId", SocketAPI.VStr roomId)])]) in
      and_then (dispatch now (SET_ACTIVE_ROOM (Some (ActiveId roomId))) p1)
        (dispatch now (MARK_ROOM_READ roomId))
  | _, _ => Done p
  end.

(** The room the client is in, whichever way [activeRoom] holds it. *)
Definition current_room (s : ChatState) : option string :=
  match activeRoom s with
  | Some (ActiveId r) => Some r
  | Some (ActiveObject room) => Some (room_id room)
  | None => None
  end.

Definition leaveRoom (socket : option unit) (user : option string) (now : string)
    (roomId : string) (p : Provider) : Outcome Provider :=
  match socket, user with
  | Some _, Some _ =>
      let p1 := mkProvider (state p)
                  (emitted p ++ [("room:leave", [("roomId", SocketAPI.VStr roomId)])]) in
      match activeRoom (state p) with
      | Some (ActiveId r) =>
          if String.eqb r roomId then dispatch now (SET_ACTIVE_ROOM None) p1 else Done p1
      | _ => Done p1
      end
  | _, _ => Done p
  end.

(** What reaches the provider, one step at a time: a [message:new]
    event, or a call of [joinRoom] or [leaveRoom] by a logged-in user
    with a socket. [now] is the clock at that step. *)
Inductive op :=
| MessageNew (now : string) (message : Message)
| Join (now : string) (roomId : string)
| Leave (now : string) (roomId : string).

Definition apply (o : op) (p : Provider) : Outcome Provider :=
  match o with
  | MessageNew now message => on_message_new now message p
  | Join now roomId => joinRoom (Some ()) (Some "user") now roomId p
  | Leave now roomId => leaveRoom (Some ()) (Some "user") now roomId p
  end.

(** The steps in order, up to the first that throws. *)
Fixpoint run (ops : list op) (p : Provider) : Outcome Provider :=
  match ops with
  | [] => Done p
  | o :: rest => and_then (apply o p) (run rest)
  end.

(** The messages among the steps, in order. *)
Definition arrivals (ops : list op) : list Message :=
  omap (λ o, match o with MessageNew _ m => Some m | _ => None end) ops.

(** The entries the [messages] object itself holds for a room. *)
Definition ledger (p : Provider) (r : string) : list Message :=
  default [] (messages (state p) !! r).

(** The count the [unreadCounts] object itself holds for a room, a
    missing one read as zero, when that is a number. *)
Definition counted (p : Provider) (r : string) : option Z :=
  match unreadCounts (state p) !! r with
  | Some (Number n) => Some n
  | Some (Text _ _) => None
  | None => Some 0
  end.

End ChatProvider.

(** ** Sequences of store actions *)

Module TypingOps.
(** The two actions of the chat store that edit [typingUsers] entry by
    entry. *)
Inductive op :=
| Add (user : TypingIndicator.t)
| Remove (userId roomId : string).

Definition apply (o : op) (s : ChatStore.ChatState) : ChatStore.ChatState :=
  match o with
  | Add user => ChatStore.addTypingUser user s
  | Remove userId roomId => ChatStore.removeTypingUser userId roomId s
  end.

Definition run (ops : list op) (s : ChatStore.ChatState) : ChatStore.ChatState :=
  fold_left (λ acc o, apply o acc) ops s.
End TypingOps.

(** ** A client that has gone online *)

Module Online.
(** The socket singleton after [connect()] and [connectToChat()] have
    both seen their socket connect. *)
Definition api : SocketAPI.t :=
  fst (SocketAPI.on_chat_transport SocketAPI.TConnect
         (SocketAPI.connectToChat
            (fst (SocketAPI.on_transport SocketAPI.TConnect
                    (SocketAPI.connect SocketAPI.initial))))).

Definition user : ChatContext.AuthUser :=
  ChatContext.mkAuthUser "u1" "ann" "ann@example.org" "token".

Definition world : ChatContext.World :=
  ChatContext.mkWorld ChatContext.initialStores api.
End Online.

(** ** [api/chatAPI.ts] and the calls [ChatContext.tsx] makes on it *)

Module ChatAPI.
(** The methods the class [ChatAPI] declares. *)
Definition methods : list string :=
  ["sendMessage"; "markMessageRead"; "markMessageDelivered"; "getMessages";
   "joinRoom"; "leaveRoom"; "createRoom"; "getRooms";
   "startTyping"; "stopTyping"; "getTypingUsers";
   "onNewMessage"; "onMessageSent"; "onMessageRead"; "onMessageDelivered";
   "onRoomMessages"; "onJoinedRoom"; "onLeftRoom"; "onUserJoinedRoom";
   "onUserLeftRoom"; "onUserTyping"; "onTypingUsers"; "onRoomCreated";
   "onRoomCreatedConfirmation"; "onAvailableRooms"; "onError";
   "offNewMessage"; "offMessageSent"; "offMessageRead"; "offMessageDelivered";
   "offRoomMessages"; "offJoinedRoom"; "offLeftRoom"; "offUserJoinedRoom";
   "offUserLeftRoom"; "offUserTyping"; "offTypingUsers"; "offRoomCreated";
   "offRoomCreatedConfirmation"; "offAvailableRooms"; "offError"].

Definition has_method (name : string) : bool :=
  existsb (String.eqb name) methods.

(** The event a listener method subscribes its callback to. *)
Definition listener_event (method : string) : string :=
  if String.eqb method "onNewMessage" then "new_message"
  else if String.eqb method "onMessageSent" then "message_sent"
  else if String.eqb method "onMessageRead" then "message_read"
  else if String.eqb method "onMessageDelivered" then "message_delivered"
  else if String.eqb method "onRoomMessages" then "room_messages"
  else if String.eqb method "onJoinedRoom" then "joined_room"
  else if String.eqb method "onLeftRoom" then "left_room"
  else if String.eqb method "onUserJoinedRoom" then "user_joined_room"
  else if String.eqb method "onUserLeftRoom" then "user_left_room"
  else if String.eqb method "onUserTyping" then "user_typing"
  else if String.eqb method "onTypingUsers" then "typing_users"
  else if String.eqb method "onRoomCreated" then "room_created"
  else if String.eqb method "onRoomCreatedConfirmation" then "room_created_confirmation"
  else if String.eqb method "onAvailableRooms" then "available_rooms"
  else if String.eqb method "onError" then "error"
  else "".
End ChatAPI.

Module ChatActions.
(** The calls of the provider's effect that register listeners, in the
    order the effect makes them. *)
Definition effect_calls : list string :=
  ["onNewMessage"; "onMessageRead"; "onMessageDelivered"; "onRoomMessages";
   "onJoinedRoom"; "onLeftRoom"; "onUserJoinedRoom"; "onUserLeftRoom";
   "onUserTyping"; "onTypingUsers"; "onRoomCreated"; "onAvailableRooms";
   "onError";
   "onOnlineUsers"; "onAllUsers"; "onUserOnline"; "onUserOffline"].

(** The calls run in order; one on a method [chatAPI] lacks throws and
    ends the effect. The result lists the events subscribed to so far. *)
Fixpoint register_all (calls : list string) (events : list string)
    : list string * UseChat.Completion :=
  match calls with
  | [] => (events, UseChat.Returned)
  | method :: rest =>
      if ChatAPI.has_method method
      then register_all rest (events ++ [ChatAPI.listener_event method])
      else (events, UseChat.TypeError ("chatAPI." +:+ method +:+ " is not a function"))
  end.

(** The effect body, with its guard. [isConnected] is what the provider
    reads from [useSocket()] under that name. *)
Definition run_effect (isAuthenticated isConnected : bool)
    : list string * UseChat.Completion :=
  if negb isAuthenticated || negb isConnected
  then ([], UseChat.Returned)
  else register_all effect_calls [].

(** The actions the provider hands out. *)
Inductive Action :=
| SendMessage (content roomId : string) (messageType : option string)
| JoinRoom (roomId : string)
| LeaveRoom (roomId : string)
| CreateRoom (name : string) (roomType : option string)
| GetMessages (roomId : string) (limit offset : option Z)
| MarkMessageRead (messageId : string)
| MarkMessageDelivered (messageId : string)
| StartTyping (roomId : string)
| StopTyping (roomId : string)
| GetOnlineUsers
| GetAllUsers
| GetUserProfile (userId : string)
| SearchUsers (query : string)
| GetUserStatistics
| GetRooms
| UpdatePresence
| SetTypingStatus (roomId : string) (isTyping : bool).

(** Whether the action starts with [if (!user) return;]. *)
Definition guarded (act : Action) : bool :=
  match act with
  | SendMessage _ _ _ | JoinRoom _ | LeaveRoom _ | CreateRoom _ _
  | MarkMessageRead _ | MarkMessageDelivered _ | StartTyping _ | StopTyping _
  | UpdatePresence | SetTypingStatus _ _ => true
  | GetMessages _ _ _ | GetOnlineUsers | GetAllUsers | GetUserProfile _
  | SearchUsers _ | GetUserStatistics | GetRooms => false
  end.

(** The [chatAPI] method the action calls. *)
Definition method (act : Action) : string :=
  match act with
  | SendMessage _ _ _ => "sendMessage"
  | JoinRoom _ => "joinRoom"
  | LeaveRoom _ => "leaveRoom"
  | CreateRoom _ _ => "createRoom"
  | GetMessages _ _ _ => "getMessages"
  | MarkMessageRead _ => "markMessageRead"
  | MarkMessageDelivered _ => "markMessageDelivered"
  | StartTyping _ => "startTyping"
  | StopTyping _ => "stopTyping"
  | GetOnlineUsers => "getOnlineUsers"
  | GetAllUsers => "getAllUsers"
  | GetUserProfile _ => "getUserProfile"
  | SearchUsers _ => "searchUsers"
  | GetUserStatistics => "getUserStatistics"
  | GetRooms => "getRooms"
  | UpdatePresence => "updatePresence"
  | SetTypingStatus _ _ => "setTypingStatus"
  end.

(** What that method of [chatAPI], where it exists, passes on to the
    socket singleton; for the others, the singleton's method of the
    same name. *)
Definition request (act : Action) : SocketAPI.t → SocketAPI.t :=
  match act with
  | SendMessage content roomId messageType =>
      SocketAPI.sendMessage content roomId (Some (default "text" messageType))
  | JoinRoom roomId => SocketAPI.joinRoom roomId
  | LeaveRoom roomId => SocketAPI.leaveRoom roomId
  | CreateRoom name roomType =>
      SocketAPI.createRoom name (Some (default "public" roomType))
  | GetMessages roomId limit offset =>
      SocketAPI.getMessages roomId (Some (default 50 limit)) (Some (default 0 offset))
  | MarkMessageRead messageId => SocketAPI.markMessageRead messageId
  | MarkMessageDelivered messageId => SocketAPI.markMessageDelivered messageId
  | StartTyping roomId => SocketAPI.startTyping roomId
  | StopTyping roomId => SocketAPI.stopTyping roomId
  | GetOnlineUsers => SocketAPI.getOnlineUsers
  | GetAllUsers => SocketAPI.getAllUsers
  | GetUserProfile userId => SocketAPI.getUserProfile userId
  | SearchUsers query => SocketAPI.searchUsers query
  | GetUserStatistics => SocketAPI.getUserStatistics
  | GetRooms => SocketAPI.getRooms
  | UpdatePresence => SocketAPI.updatePresence
  | SetTypingStatus roomId isTyping => SocketAPI.setTypingStatus roomId isTyping
  end.

Definition perform (user : option ChatContext.AuthUser) (act : Action)
    (w : ChatContext.World) : ChatContext.World * UseChat.Completion :=
  if guarded act && negb (bool_decide (is_Some user))
  then (w, UseChat.Returned)
  else if ChatAPI.has_method (method act)
  then (ChatContext.on_api (request act) w, UseChat.Returned)
  else (w, UseChat.TypeError ("chatAPI." +:+ method act +:+ " is not a function")).

(** The four functions of the chat store that the provider hands out as
    they are. *)
Inductive StoreAction :=
| ClearError
| ClearMessages
| ClearTypingUsers
| Reset.

Definition perform_store (act : StoreAction) (w : ChatContext.World) : ChatContext.World :=
  ChatContext.on_stores
    (ChatContext.on_chat
       match act with
       | ClearError => ChatStore.clearError
       | ClearMessages => ChatStore.clearMessages
       | ClearTypingUsers => ChatStore.clearTypingUsers
       | Reset => ChatStore.reset
       end)
    w.
End ChatActions.

(** ** [hooks/useChat.ts]: the typing timer *)

Module TypingTimer.
(** The hook's [typingTimeoutRef], the time-outs it has set that have
    neither run nor been cleared (handle, due time, room), the next
    handle [setTimeout] gives out, and the client. *)
Record Hook := mkHook {
  typingTimeoutRef : option nat;
  timeouts : list (nat * Z * string);
  next_handle : nat;
  world : ChatContext.World
}.

Definition initial (w : ChatContext.World) : Hook := mkHook None [] 0%nat w.

Definition clearTimeout (handle : nat) (l : list (nat * Z * string))
    : list (nat * Z * string) :=
  List.filter (λ t, negb (Nat.eqb (fst (fst t)) handle)) l.

Definition startTyping (user : option ChatContext.AuthUser) (now : Z) (roomId : string)
    (h : Hook) : Hook :=
  match user with
  | None => h
  | Some _ =>
      let pending :=
        match typingTimeoutRef h with
        | Some handle => clearTimeout handle (timeouts h)
        | None => timeouts h
        end in
      let w1 := ChatContext.startTyping user roomId (world h) in
      mkHook (Some (next_handle h))
             (pending ++ [(next_handle h, now + Constants.TYPING_TIMEOUT, roomId)])
             (S (next_handle h)) w1
  end.

Definition stopTyping (user : option ChatContext.AuthUser) (roomId : string)
    (h : Hook) : Hook :=
  match user with
  | None => h
  | Some _ =>
      let pending :=
        match typingTimeoutRef h with
        | Some handle => clearTimeout handle (timeouts h)
        | None => timeouts h
        end in
      mkHook None pending (next_handle h)
             (ChatContext.stopTyping user roomId (world h))
  end.

(** The event loop at time [now]: every time-out that is due runs its
    callback, [chatContext.stopTyping(roomId)], and is gone. The ref is
    not touched. *)
Definition fire_due (user : option ChatContext.AuthUser) (now : Z) (h : Hook) : Hook :=
  let due := List.filter (λ t, snd (fst t) <=? now) (timeouts h) in
  let later := List.filter (λ t, negb (snd (fst t) <=? now)) (timeouts h) in
  mkHook (typingTimeoutRef h) later (next_handle h)
         (fold_left (λ w t, ChatContext.stopTyping user (snd t) w) due (world h)).

Inductive op :=
| Start (now : Z) (roomId : string)
| Stop (roomId : string)
| Fire (now : Z).

Definition apply (user : option ChatContext.AuthUser) (o : op) (h : Hook) : Hook :=
  match o with
  | Start now roomId => startTyping user now roomId h
  | Stop roomId => stopTyping user roomId h
  | Fire now => fire_due user now h
  end.

Definition run (user : option ChatContext.AuthUser) (ops : list op) (h : Hook) : Hook :=
  fold_left (λ acc o, apply user o acc) ops h.



(** No time-out is pending, or one is and the ref holds its handle. *)
Definition one_pending (h : Hook) : Prop :=
  timeouts h = [] ∨
  ∃ handle due roomId,
    timeouts h = [(handle, due, roomId)] ∧ typingTimeoutRef h = Some handle.
End TypingTimer.

(** ** The authentication provider ([authReducer], [AuthProvider]) and
    [hooks/useAuth.ts] *)

Module Auth.
Record AuthState := mkState {
  user : option ChatContext.AuthUser;
  isAuthenticated : bool;
  isLoading : bool;
  error : option string
}.

Definition initialState : AuthState := mkState None false false None.

Inductive AuthAction :=
| SET_LOADING (payload : bool)
| SET_USER (payload : ChatContext.AuthUser)
| SET_ERROR (payload : string)
| CLEAR_ERROR
| LOGOUT.

Definition authReducer (state : AuthState) (action : AuthAction) : AuthState :=
  match action with
  | SET_LOADING payload =>
      mkState (user state) (isAuthenticated state) payload (error state)
  | SET_USER payload => mkState (Some payload) true false None
  | SET_ERROR payload =>
      mkState (user state) (isAuthenticated state) false (Some payload)
  | CLEAR_ERROR =>
      mkState (user state) (isAuthenticated state) (isLoading state) None
  | LOGOUT => mkState None false false None
  end.

(** The provider: the reducer state, the [authToken] item of
    [localStorage], and the socket singleton. *)
Record Provider := mkProvider {
  state : AuthState;
  authToken : option string;
  api : SocketAPI.t
}.

Definition dispatch (action : AuthAction) (p : Provider) : Provider :=
  mkProvider (authReducer (state p) action) (authToken p) (api p).

(** The events the provider listens to on the main channel. *)
Inductive AuthEvent :=
| authenticated (user_id username email : string)
| registered (user_id username email token : string)
| logged_in (user_id username email token : string)
| logged_out
| error_event (message : string).

(** [localStorage.getItem('authToken') || ''] *)
Definition stored_token_or_empty (p : Provider) : string :=
  match authToken p with
  | Some token => if String.eqb token "" then "" else token
  | None => ""
  end.

Definition deliver (ev : AuthEvent) (p : Provider) : Provider :=
  match ev with
  | authenticated user_id username email =>
      dispatch (SET_USER (ChatContext.mkAuthUser user_id username email
                            (stored_token_or_empty p))) p
  | registered user_id username email token
  | logged_in user_id username email token =>
      dispatch (SET_USER (ChatContext.mkAuthUser user_id username email token))
        (mkProvider (state p) (Some token) (api p))
  | logged_out =>
      dispatch LOGOUT (mkProvider (state p) None (api p))
  | error_event message => dispatch (SET_ERROR message) p
  end.

Definition on_api (f : SocketAPI.t → SocketAPI.t) (p : Provider) : Provider :=
  mkProvider (state p) (authToken p) (f (api p)).

Definition login (username password : string) (p : Provider) : Provider :=
  on_api (SocketAPI.login username password)
    (dispatch CLEAR_ERROR (dispatch (SET_LOADING true) p)).

Definition register (username email password : string) (p : Provider) : Provider :=
  on_api (SocketAPI.register username email password)
    (dispatch CLEAR_ERROR (dispatch (SET_LOADING true) p)).

Definition logout (p : Provider) : Provider := on_api SocketAPI.logout p.

Definition authenticate (token : string) (p : Provider) : Provider :=
  on_api (SocketAPI.authenticate token)
    (dispatch CLEAR_ERROR (dispatch (SET_LOADING true) p)).

Definition clearError (p : Provider) : Provider := dispatch CLEAR_ERROR p.

(** The effect that runs on mount: a stored token that is not the empty
    string is sent for authentication. *)
Definition on_mount (p : Provider) : Provider :=
  match authToken p with
  | Some token => if String.eqb token "" then p else authenticate token p
  | None => p
  end.

(** The functions among the properties of the provider's [value]
    ([login], [register], [logout], [authenticate], [clearError]), by
    name, each taking its string arguments in order. Any other name read
    as a method gives [undefined]. *)
Definition method (name : string) : option (list string → Provider → Provider) :=
  if String.eqb name "login"
  then Some (λ args, login (nth 0 args "") (nth 1 args ""))
  else if String.eqb name "register"
  then Some (λ args, register (nth 0 args "") (nth 1 args "") (nth 2 args ""))
  else if String.eqb name "logout" then Some (λ _, logout)
  else if String.eqb name "authenticate"
  then Some (λ args, authenticate (nth 0 args ""))
  else if String.eqb name "clearError" then Some (λ _, clearError)
  else None.

(** [authContext.name(...args)]: calling [undefined] throws. *)
Definition call (name : string) (args : list string) (p : Provider)
    : Provider * UseChat.Completion :=
  match method name with
  | Some f => (f args p, UseChat.Returned)
  | None => (p, UseChat.TypeError ("authContext." +:+ name +:+ " is not a function"))
  end.

(** What the provider does, one step at a time. *)
Inductive op :=
| Event (ev : AuthEvent)
| Login (username password : string)
| Register (username email password : string)
| Logout
| Authenticate (token : string)
| ClearError
| Mount.

Definition apply (o : op) (p : Provider) : Provider :=
  match o with
  | Event ev => deliver ev p
  | Login username password => login username password p
  | Register username email password => register username email password p
  | Logout => logout p
  | Authenticate token => authenticate token p
  | ClearError => clearError p
  | Mount => on_mount p
  end.

Definition run (ops : list op) (p : Provider) : Provider :=
  fold_left (λ acc o, apply o acc) ops p.

(** [useAuth().login] of [hooks/useAuth.ts]: the form is validated
    first. *)
Definition useAuth_login (username password : string) (p : Provider)
    : Provider * UseChat.Completion :=
  let validation := Validators.validateLoginForm username password in
  if negb (Validators.isValid validation)
  then call "setError" [default "" (Validators.errors validation !! 0%nat)] p
  else call "login" [username; password] p.

(** The flag says whether there is a user, and the user's token is the
    stored one (the empty string when none is stored). *)
Definition consistent (p : Provider) : Prop :=
  isAuthenticated (state p) = bool_decide (is_Some (user (state p))) ∧
  ∀ u, user (state p) = Some u → ChatContext.au_token u = stored_token_or_empty p.
End Auth.

(** ** [getMessageGroups] of the chat container *)

Section message_groups.
(** The container's messages: what is read of one is its [senderId],
    and its [sentAt] to tell whether it comes more than five minutes
    after the one before ([late prev m]). *)
Context {M : Type} (senderId : M → string) (late : M → M → bool).

(** The loop's variables: [groups], [currentGroup], and the previous
    message, which [lastSenderId] and [lastTimestamp] are read from. *)
Record GroupLoop := mkLoop {
  groups : list (list M);
  currentGroup : list M;
  previous : option M
}.

(** One turn of the [forEach]. *)
Definition group_step (st : GroupLoop) (message : M) : GroupLoop :=
  let break :=
    match previous st with
    | None => true
    | Some prev =>
        negb (String.eqb (senderId message) (senderId prev)) || late prev message
    end in
  if break
  then mkLoop (if (0 <? Z.of_nat (length (currentGroup st)))
               then groups st ++ [currentGroup st] else groups st)
              [message] (Some message)
  else mkLoop (groups st) (currentGroup st ++ [message]) (Some message).

Definition getMessageGroups (messages : list M) : list (list M) :=
  let st := fold_left group_step messages (mkLoop [] [] None) in
  if 0 <? Z.of_nat (length (currentGroup st))
  then groups st ++ [currentGroup st] else groups st.
End message_groups.

(** ** Sequences of user-store actions *)

Module PresenceOps.
Inductive op :=
| SetOnline (users : list User.t)
| AddOnline (user : User.t)
| RemoveOnline (userId : string)
| Update (userId : string) (updates : User.partial).

Definition apply (o : op) (s : UserStore.UserState) : UserStore.UserState :=
  match o with
  | SetOnline users => UserStore.setOnlineUsers users s
  | AddOnline user => UserStore.addOnlineUser user s
  | RemoveOnline userId => UserStore.removeOnlineUser userId s
  | Update userId updates => UserStore.updateUser userId updates s
  end.

Definition run (ops : list op) (s : UserStore.UserState) : UserStore.UserState :=
  fold_left (λ acc o, apply o acc) ops s.
End PresenceOps.

(** * Properties *)

(** ** Facts about the array helpers *)

Section js_array_facts.
Context {A : Type}.
Implicit Types (p : A → bool) (l : list A).

Lemma findIndex_from_range p l i :
  findIndex_from p l i = -1 ∨
  (i ≤ findIndex_from p l i < i + Z.of_nat (length l)).
Proof.
  revert i; induction l as [|x l IH]; intros i; simpl; [by left|].
  destruct (p x); [right; lia|].
  destruct (IH (i + 1)) as [->|?]; [by left | right; lia].
Qed.

Lemma findIndex_from_hit p l i :
  0 ≤ i → 0 ≤ findIndex_from p l i →
  ∃ x, l !! Z.to_nat (findIndex_from p l i - i) = Some x ∧ p x = true.
Proof.
  revert i; induction l as [|x l IH]; intros i Hi Hf; simpl in *; [lia|].
  destruct (p x) eqn:Hp.
  - exists x. by replace (i - i) with 0 by lia.
  - destruct (IH (i + 1)) as (y & Hy & Hpy); [lia | done |].
    exists y; split; [|done].
    destruct (findIndex_from_range p l (i + 1)) as [E|E]; [lia|].
    replace (Z.to_nat (findIndex_from p l (i + 1) - i))
      with (S (Z.to_nat (findIndex_from p l (i + 1) - (i + 1)))) by lia.
    done.
Qed.

Lemma findIndex_from_miss p l i :
  0 ≤ i → findIndex_from p l i < 0 → ∀ x, x ∈ l → p x = false.
Proof.
  revert i; induction l as [|x l IH]; intros i Hi Hf y Hy; simpl in *.
  - by apply not_elem_of_nil in Hy.
  - destruct (p x) eqn:Hp; [lia|].
    apply elem_of_cons in Hy as [->|Hy]; [done|].
    by apply (IH (i + 1)); [lia | |].
Qed.

Lemma findIndex_hit p l :
  0 ≤ findIndex p l →
  ∃ x, l !! Z.to_nat (findIndex p l) = Some x ∧ p x = true.
Proof.
  intros H. destruct (findIndex_from_hit p l 0) as (x & Hx & Hp); [lia | done |].
  exists x. split; [|done]. unfold findIndex.
  by replace (findIndex_from p l 0) with (findIndex_from p l 0 - 0) at 1 by lia.
Qed.

Lemma findIndex_miss p l :
  ¬ 0 ≤ findIndex p l → ∀ x, x ∈ l → p x = false.
Proof. intros H. apply (findIndex_from_miss p l 0); [lia | unfold findIndex in H; lia]. Qed.

Lemma find_none_iff p l :
  find p l = None ↔ ∀ x, x ∈ l → p x = false.
Proof.
  induction l as [|x l IH]; simpl.
  - split; [intros _ y Hy; by apply not_elem_of_nil in Hy | done].
  - destruct (p x) eqn:Hp.
    + split; [done|]. intros H. specialize (H x (list_elem_of_here _ _)). congruence.
    + rewrite IH. split.
      * intros H y Hy. apply elem_of_cons in Hy as [->|Hy]; auto.
      * intros H y Hy. apply H. by apply list_elem_of_further.
Qed.
End js_array_facts.

(** ** The typing list of the chat store *)

Section typing_users.
Import ChatStore.
Implicit Types (s : ChatState) (u user : TypingIndicator.t) (l : list TypingIndicator.t).

Lemma same_typing_key_true userId roomId u :
  same_typing_key userId roomId u = true ↔ TypingIndicator.key u = (userId, roomId).
Proof.
  unfold same_typing_key, TypingIndicator.key.
  rewrite andb_true_iff, !String.eqb_eq. split; [intros [-> ->]; done | by inversion 1].
Qed.

Lemma same_typing_key_false userId roomId u :
  same_typing_key userId roomId u = false ↔ TypingIndicator.key u ≠ (userId, roomId).
Proof.
  rewrite <- same_typing_key_true. destruct (same_typing_key userId roomId u); split; congruence.
Qed.

Lemma filter_keys_subset (f : TypingIndicator.t → bool) l k :
  k ∈ TypingIndicator.key <$> List.filter f l → k ∈ TypingIndicator.key <$> l.
Proof.
  rewrite !list_elem_of_fmap. intros (x & -> & Hx). exists x; split; [done|].
  apply list_elem_of_In. apply list_elem_of_In in Hx. by apply List.filter_In in Hx as [? _].
Qed.

Lemma filter_keys_NoDup (f : TypingIndicator.t → bool) l :
  NoDup (TypingIndicator.key <$> l) → NoDup (TypingIndicator.key <$> List.filter f l).
Proof.
  induction l as [|x l IH]; simpl; [done|].
  rewrite NoDup_cons. intros [Hx Hl]. destruct (f x); simpl; [|auto].
  apply NoDup_cons. split; [|auto]. intros Hin. by apply Hx, (filter_keys_subset f).
Qed.

(** [addTypingUser] on a key the list has: the entry found is overwritten
    where it stands. *)
Lemma addTypingUser_present s user :
  TypingIndicator.key user ∈ TypingIndicator.key <$> typingUsers s →
  ∃ (i : nat) old,
    typingUsers s !! i = Some old ∧
    TypingIndicator.key old = TypingIndicator.key user ∧
    typingUsers (addTypingUser user s) = <[i := user]> (typingUsers s).
Proof.
  intros Hin. unfold addTypingUser.
  set (p := same_typing_key _ _).
  destruct (Z.leb_spec 0 (findIndex p (typingUsers s))) as [Hge|Hlt].
  - destruct (findIndex_hit p (typingUsers s) Hge) as (old & Hold & Hp).
    exists (Z.to_nat (findIndex p (typingUsers s))), old.
    split; [done|]. split; [|done]. by apply same_typing_key_true in Hp.
  - exfalso. apply list_elem_of_fmap in Hin as (x & Hk & Hx).
    assert (p x = false) as Hf by (apply (findIndex_miss p (typingUsers s)); [lia | done]).
    apply same_typing_key_false in Hf. by apply Hf.
Qed.

(** [addTypingUser] on a key the list lacks: the entry goes to the end. *)
Lemma addTypingUser_absent s user :
  TypingIndicator.key user ∉ TypingIndicator.key <$> typingUsers s →
  typingUsers (addTypingUser user s) = typingUsers s ++ [user].
Proof.
  intros Hnin. unfold addTypingUser.
  set (p := same_typing_key _ _).
  destruct (Z.leb_spec 0 (findIndex p (typingUsers s))) as [Hge|Hlt]; [|done].
  destruct (findIndex_hit p (typingUsers s) Hge) as (old & Hold & Hp).
  exfalso. apply Hnin. apply list_elem_of_fmap. exists old. split.
  - symmetry. by apply same_typing_key_true in Hp.
  - by eapply list_elem_of_lookup_2.
Qed.

Lemma addTypingUser_NoDup s user :
  NoDup (TypingIndicator.key <$> typingUsers s) →
  NoDup (TypingIndicator.key <$> typingUsers (addTypingUser user s)).
Proof.
  intros Hnd.
  destruct (decide (TypingIndicator.key user ∈ TypingIndicator.key <$> typingUsers s))
    as [Hin|Hnin].
  - destruct (addTypingUser_present s user Hin) as (i & old & Hi & Hk & ->).
    rewrite list_fmap_insert, list_insert_id; [done|].
    by rewrite list_lookup_fmap, Hi, <- Hk.
  - rewrite (addTypingUser_absent s user Hnin), fmap_app. simpl.
    apply NoDup_app. split; [done|]. split; [|apply NoDup_singleton].
    intros k Hk Hk'. apply list_elem_of_singleton in Hk' as ->. by apply Hnin.
Qed.

Lemma removeTypingUser_NoDup s userId roomId :
  NoDup (TypingIndicator.key <$> typingUsers s) →
  NoDup (TypingIndicator.key <$> typingUsers (removeTypingUser userId roomId s)).
Proof. apply filter_keys_NoDup. Qed.

Lemma typing_ops_NoDup ops s :
  NoDup (TypingIndicator.key <$> typingUsers s) →
  NoDup (TypingIndicator.key <$> typingUsers (TypingOps.run ops s)).
Proof.
  revert s; induction ops as [|o ops IH]; intros s Hs; simpl; [done|].
  apply IH. destruct o; simpl;
    [by apply addTypingUser_NoDup | by apply removeTypingUser_NoDup].
Qed.

(** C9. From the initial store, after any sequence of [addTypingUser] and
    [removeTypingUser] calls, no two entries of [typingUsers] have the
    same (user_id, room_id); and [addTypingUser] with a key that is
    already there overwrites that entry at its index, so the list keeps
    its length. *)
Theorem typing_users_one_entry_per_key (ops : list TypingOps.op) :
  let s := TypingOps.run ops initialState in
  NoDup (TypingIndicator.key <$> typingUsers s) ∧
  ∀ user,
    TypingIndicator.key user ∈ TypingIndicator.key <$> typingUsers s →
    length (typingUsers (addTypingUser user s)) = length (typingUsers s) ∧
    ∃ (i : nat) old,
      typingUsers s !! i = Some old ∧
      TypingIndicator.key old = TypingIndicator.key user ∧
      typingUsers (addTypingUser user s) = <[i := user]> (typingUsers s).
Proof.
  intros s. split.
  - apply typing_ops_NoDup. simpl. apply NoDup_nil_2.
  - intros user Hin.
    destruct (addTypingUser_present s user Hin) as (i & old & Hi & Hk & Heq).
    split; [|by eauto]. by rewrite Heq, length_insert.
Qed.

(** C9 at a concrete run: two users start typing in room r1, the first
    one again with a new display name. *)
Lemma typing_users_one_entry_per_key_witness :
  let ops := [TypingOps.Add (TypingIndicator.mk "u1" "r1" "ann" true);
              TypingOps.Add (TypingIndicator.mk "u2" "r1" "bob" true)] in
  let s := TypingOps.run ops initialState in
  let again := TypingIndicator.mk "u1" "r1" "anna" true in
  NoDup (TypingIndicator.key <$> typingUsers s) ∧
  length (typingUsers (addTypingUser again s)) = 2%nat ∧
  typingUsers (addTypingUser again s)
  = [again; TypingIndicator.mk "u2" "r1" "bob" true].
Proof.
  intros ops s again.
  destruct (typing_users_one_entry_per_key ops) as [Hnd Hadd].
  split; [exact Hnd|].
  destruct (Hadd again) as [Hlen _].
  - vm_compute. apply list_elem_of_here.
  - split; [exact Hlen | reflexivity].
Defined.
End typing_users.

(** ** The message ledger: [new_message] and the receipts *)

Section ledger.
Import ChatStore ChatContext.
Implicit Types (s : Stores) (m : Message.t) (data : MessageReceipt).

Lemma handleNewMessage_frame m s :
  currentRoom (chat (handleNewMessage m s)) = currentRoom (chat s) ∧
  typingUsers (chat (handleNewMessage m s)) = typingUsers (chat s) ∧
  isLoading (chat (handleNewMessage m s)) = isLoading (chat s) ∧
  ChatStore.error (chat (handleNewMessage m s)) = ChatStore.error (chat s) ∧
  users (handleNewMessage m s) = users s.
Proof. by repeat split. Qed.

(** C2, as the code has it. The [new_message] handler puts the message in
    front of the ledger whatever the ledger holds. After [n] receipts of
    one message the ledger starts with [n] copies of it, so it has [n]
    more entries with that id than before (two after two receipts); the
    earlier entries and every other field of both stores are as they
    were. *)
Theorem new_message_prepends_every_time m s (n : nat) :
  let after := Nat.iter n (handleNewMessage m) s in
  let with_id l :=
    List.filter (λ x, String.eqb (Message.message_id x) (Message.message_id m)) l in
  messages (chat after) = replicate n m ++ messages (chat s) ∧
  length (with_id (messages (chat after)))
  = (n + length (with_id (messages (chat s))))%nat ∧
  currentRoom (chat after) = currentRoom (chat s) ∧
  typingUsers (chat after) = typingUsers (chat s) ∧
  isLoading (chat after) = isLoading (chat s) ∧
  ChatStore.error (chat after) = ChatStore.error (chat s) ∧
  users after = users s ∧
  after = mkStores (with_messages (replicate n m ++ messages (chat s)) (chat s)) (users s).
Proof.
  intros after with_id. subst after.
  induction n as [|n IH].
  - repeat split. destruct s as [[ms cr tu il er] us]. reflexivity.
  - destruct IH as (Hm & Hc & Hr & Ht & Hl & He & Hu & Hall).
    rewrite Nat.iter_succ.
    set (prev := Nat.iter n (handleNewMessage m) s) in *.
    destruct (handleNewMessage_frame m prev) as (Hr' & Ht' & Hl' & He' & Hu').
    change (messages (chat (handleNewMessage m prev))) with (m :: messages (chat prev)).
    repeat split; try congruence.
    + by rewrite Hm.
    + subst with_id. cbn [List.filter]. rewrite String.eqb_refl. cbn [length].
      by rewrite Hc.
    + rewrite Hall. reflexivity.
Qed.

(** C2 fails on the empty store: the second receipt of message m1 leaves
    two entries with that id. *)
Lemma new_message_twice_not_idempotent :
  let m := Message.mk "m1" "u1" "hi" "r1" "text" "t0" "ann" [] [] in
  let once := handleNewMessage m initialStores in
  let twice := handleNewMessage m once in
  messages (chat once) = [m] ∧
  messages (chat twice) = [m; m] ∧
  twice ≠ once.
Proof. repeat split. discriminate. Qed.

(** What a receipt writes: every entry with the receipt's message id gets
    the list computed from the handler's own [messages], the others stay. *)
Lemma handleMessageRead_messages (captured : list Message.t) data s :
  messages (chat (handleMessageRead captured data s))
  = (λ msg, if String.eqb (Message.message_id msg) (message_id data)
            then Message.spread msg
                   (Message.only_read_by
                      (found_read_by captured (message_id data) ++ [user_id data]))
            else msg) <$> messages (chat s).
Proof. reflexivity. Qed.

Lemma find_unique_id (l : list Message.t) m :
  NoDup (Message.message_id <$> l) → m ∈ l →
  find (λ x, String.eqb (Message.message_id x) (Message.message_id m)) l = Some m.
Proof.
  induction l as [|x l IH]; simpl; intros Hnd Hin.
  - by apply not_elem_of_nil in Hin.
  - apply NoDup_cons in Hnd as [Hx Hnd].
    apply elem_of_cons in Hin as [->|Hin]; [by rewrite String.eqb_refl|].
    destruct (String.eqb_spec (Message.message_id x) (Message.message_id m)) as [E|_].
    + exfalso. apply Hx. rewrite E. apply list_elem_of_fmap. eauto.
    + auto.
Qed.

(** Were the handler to read the ledger it is about to update, and the
    ledger free of repeated ids, a read receipt would only add: each
    entry keeps its readers and the receipt's message gains the user. *)
Lemma handleMessageRead_current_ledger_grows data s m :
  NoDup (Message.message_id <$> messages (chat s)) →
  m ∈ messages (chat s) →
  ∃ m', m' ∈ messages (chat (handleMessageRead (messages (chat s)) data s)) ∧
        Message.message_id m' = Message.message_id m ∧
        Message.read_by m ⊆ Message.read_by m' ∧
        Message.delivered_to m' = Message.delivered_to m ∧
        (Message.message_id m = message_id data → user_id data ∈ Message.read_by m').
Proof.
  intros Hnd Hin. rewrite handleMessageRead_messages.
  eexists. split; [apply list_elem_of_fmap; eexists; split; [reflexivity | exact Hin]|].
  destruct (String.eqb_spec (Message.message_id m) (message_id data)) as [E|NE]; simpl.
  - repeat split; try done.
    + unfold found_read_by. rewrite <- E, (find_unique_id _ m Hnd Hin).
      intros x Hx. apply elem_of_app. by left.
    + intros _. apply elem_of_app. right. apply list_elem_of_here.
  - repeat split; done.
Qed.

(** C1 at the failing run. The listeners are registered on the empty
    store. Message m1 arrives, then user u1 reads it, then user u2: after
    the first receipt [read_by] is [u1], after the second it is [u2], so
    u1 has been dropped. The delivery receipts go the same way. *)
Theorem receipts_forget_earlier_users :
  let m := Message.mk "m1" "u0" "hi" "r1" "text" "t0" "ann" [] [] in
  let read1 := message_read (mkReceipt "m1" "u1" "t1") in
  let read2 := message_read (mkReceipt "m1" "u2" "t2") in
  let dlv1 := message_delivered (mkReceipt "m1" "u1" "t1") in
  let dlv2 := message_delivered (mkReceipt "m1" "u2" "t2") in
  Message.read_by <$> messages (chat (run_registered initialStores [new_message m; read1]))
    = [["u1"]] ∧
  Message.read_by <$> messages (chat (run_registered initialStores [new_message m; read1; read2]))
    = [["u2"]] ∧
  Message.delivered_to <$> messages (chat (run_registered initialStores [new_message m; dlv1]))
    = [["u1"]] ∧
  Message.delivered_to <$> messages (chat (run_registered initialStores [new_message m; dlv1; dlv2]))
    = [["u2"]].
Proof. by repeat split. Qed.

(** Also with the handler reading the current ledger, a ledger that holds
    one id twice loses readers: both entries get the first one's list. *)
Lemma receipt_overwrites_duplicate_entry :
  let newer := Message.mk "m1" "u0" "hi" "r1" "text" "t0" "ann" ["a"] [] in
  let older := Message.mk "m1" "u0" "hi" "r1" "text" "t0" "ann" ["b"] [] in
  let s := handleNewMessage newer (handleNewMessage older initialStores) in
  Message.read_by <$> messages (chat s) = [["a"]; ["b"]] ∧
  Message.read_by
    <$> messages (chat (handleMessageRead (messages (chat s)) (mkReceipt "m1" "c" "t1") s))
    = [["a"; "c"]; ["a"; "c"]].
Proof. by repeat split. Qed.
End ledger.

(** ** Which inbound events can change the ledger's entries *)

Section ledger_entries.
Import ChatStore ChatContext.
Implicit Types (s : Stores) (ev : ChatEvent).

Lemma updateMessage_ids (messageId : string) (updates : Message.partial) (c : ChatState) :
  Message.p_message_id updates = None →
  Message.message_id <$> messages (updateMessage messageId updates c)
  = Message.message_id <$> messages c.
Proof.
  intros Hid. unfold updateMessage. cbn [messages with_messages].
  rewrite <- list_fmap_compose. apply list_fmap_ext.
  intros i x _. simpl. destruct (String.eqb _ _); [|done].
  unfold Message.spread. simpl. by rewrite Hid.
Qed.

Lemma addTypingUser_messages user (c : ChatState) :
  messages (addTypingUser user c) = messages c.
Proof. unfold addTypingUser. by destruct (0 <=? _). Qed.

(** An event other than [new_message] and [room_messages] leaves the
    ids of the ledger's entries, in order, as they were. *)
Lemma deliver_keeps_ledger_ids captured ev s :
  (∀ m, ev ≠ new_message m) → (∀ ms, ev ≠ room_messages ms) →
  Message.message_id <$> messages (chat (deliver captured ev s))
  = Message.message_id <$> messages (chat s).
Proof.
  intros Hnew Hsnap. unfold deliver.
  destruct ev; cbn [subscribed handle]; try done.
  - by destruct (Hnew message).
  - by apply updateMessage_ids.
  - by apply updateMessage_ids.
  - by destruct (Hsnap messages0).
  - unfold handleUserTyping. destruct is_typing; cbn [on_chat chat]; [|done].
    by rewrite addTypingUser_messages.
Qed.
End ledger_entries.

(** ** Sending a message *)

Section sending.
Import ChatContext.
Implicit Types (w : World) (user : AuthUser) (content roomId : string).

Lemma online_api_connected :
  SocketAPI.is_connected (SocketAPI.socket Online.api) = true ∧
  SocketAPI.is_connected (SocketAPI.chatSocket Online.api) = true ∧
  SocketAPI.connectionState Online.api = SocketAPI.mkConn true false None.
Proof. by repeat split. Qed.

(** C3, as the code has it. With a user logged in and the chat socket
    connected, [sendMessage] puts one [send_message] request on the chat
    channel, carrying the content, the room id and the message type and
    nothing else, and does not touch the stores: the ledger gets no entry
    of any kind. The [message_sent] acknowledgment reaches no listener
    and changes nothing either. Of the events that arrive afterwards two
    add entries to the ledger: [new_message], whose message becomes the
    first entry, and [room_messages], whose snapshot replaces the
    ledger; every other event leaves the ids of the ledger's entries, in
    order, as they were. *)
Theorem sendMessage_emits_and_stores_nothing
    user content roomId (messageType : option string) w :
  SocketAPI.is_connected (SocketAPI.chatSocket (api w)) = true →
  let w1 := sendMessage (Some user) content roomId messageType w in
  stores w1 = stores w ∧
  api w1 = SocketAPI.with_wire
             (SocketAPI.wire (api w)
                ++ [SocketAPI.mkEmission SocketAPI.Chat "send_message"
                      [("content", SocketAPI.VStr content);
                       ("room_id", SocketAPI.VStr roomId);
                       ("message_type", SocketAPI.VStr (default "text" messageType))]])
             (api w) ∧
  (∀ captured id ts, deliver captured (message_sent id ts) (stores w1) = stores w) ∧
  (∀ captured m,
     ChatStore.messages (chat (deliver captured (new_message m) (stores w1)))
     = m :: ChatStore.messages (chat (stores w))) ∧
  (∀ captured ms,
     ChatStore.messages (chat (deliver captured (room_messages ms) (stores w1))) = ms) ∧
  (∀ captured ev,
     (∀ m, ev ≠ new_message m) → (∀ ms, ev ≠ room_messages ms) →
     Message.message_id <$> ChatStore.messages (chat (deliver captured ev (stores w1)))
     = Message.message_id <$> ChatStore.messages (chat (stores w))).
Proof.
  intros Hc w1.
  assert (stores w1 = stores w) as Hs.
  { subst w1. unfold sendMessage, on_api. reflexivity. }
  split; [done|]. split.
  - subst w1. unfold sendMessage, on_api, SocketAPI.sendMessage, SocketAPI.emitToChat.
    by rewrite Hc.
  - rewrite Hs. split; [done|]. split; [done|]. split; [done|].
    intros captured ev Hnew Hsnap. by apply deliver_keeps_ledger_ids.
Qed.

(** C3 at its scenario: the client goes online and sends "hi" to room
    r1. *)
Lemma sendMessage_emits_and_stores_nothing_witness :
  let w1 := sendMessage (Some Online.user) "hi" "r1" None Online.world in
  stores w1 = stores Online.world ∧
  SocketAPI.wire (api w1)
  = SocketAPI.wire Online.api
      ++ [SocketAPI.mkEmission SocketAPI.Chat "send_message"
            [("content", SocketAPI.VStr "hi");
             ("room_id", SocketAPI.VStr "r1");
             ("message_type", SocketAPI.VStr "text")]].
Proof.
  intros w1.
  destruct (sendMessage_emits_and_stores_nothing Online.user "hi" "r1" None Online.world)
    as (Hs & Ha & _); [reflexivity|].
  split; [exact Hs|]. subst w1. rewrite Ha. reflexivity.
Defined.

(** C3 fails at its own scenario: after [sendMessage] the ledger is
    empty, and it still is after [message_sent] for id m1, through the
    validating hook as well. *)
Lemma sendMessage_inserts_no_optimistic_entry :
  let w1 := sendMessage (Some Online.user) "hi" "r1" None Online.world in
  let acked := deliver [] (message_sent "m1" "t1") (stores w1) in
  let hooked := UseChat.sendMessage (Some Online.user) "hi" "r1" None Online.world in
  ChatStore.messages (chat (stores w1)) = [] ∧
  ChatStore.messages (chat acked) = [] ∧
  List.filter (λ m, String.eqb (Message.message_id m) "m1")
              (ChatStore.messages (chat acked)) = [] ∧
  snd hooked = UseChat.Returned ∧
  ChatStore.messages (chat (stores (fst hooked))) = [].
Proof. by repeat split. Qed.
End sending.

(** ** Local validation in the [useChat] hook *)

Section validation.
Import Validators.

Lemma validateMessage_isValid content :
  isValid (validateMessage content)
  = negb (falsy content || (js_length (trim content) =? 0))
    && negb (1000 <? js_length content).
Proof.
  unfold validateMessage.
  destruct (falsy content || (js_length (trim content) =? 0));
    destruct (1000 <? js_length content); reflexivity.
Qed.

(** Content that is empty, all white space, or longer than 1000 code
    units does not validate. *)
Lemma validateMessage_rejects content :
  content = "" ∨ trim content = "" ∨ 1000 < js_length content →
  isValid (validateMessage content) = false.
Proof.
  rewrite validateMessage_isValid. intros [->|[E|L]].
  - reflexivity.
  - rewrite E. simpl. by rewrite orb_true_r.
  - apply Z.ltb_lt in L. rewrite L. simpl. apply andb_false_r.
Qed.

Lemma validateMessage_first_error content :
  isValid (validateMessage content) = false →
  errors (validateMessage content) !! 0%nat = Some "Message cannot be empty" ∨
  errors (validateMessage content) !! 0%nat
  = Some "Message is too long (max 1000 characters)".
Proof.
  unfold validateMessage.
  destruct (falsy content || (js_length (trim content) =? 0));
    destruct (1000 <? js_length content); simpl; auto. discriminate.
Qed.

(** The context object has [clearError] and [sendMessage] but no
    [setError]. *)
Lemma context_properties :
  ChatContext.has_property "setError" = false ∧
  ChatContext.has_property "clearError" = true ∧
  ChatContext.has_property "sendMessage" = true.
Proof. by repeat split. Qed.

(** The hook on content that does not validate, for a logged-in user:
    the call to [chatContext.setError] throws, and the client is left as
    it was, so nothing went to the network and the store's [error] was
    not set. *)
Lemma useChat_sendMessage_invalid user content roomId messageType w :
  isValid (validateMessage content) = false →
  UseChat.sendMessage (Some user) content roomId messageType w
  = (w, UseChat.TypeError "chatContext.setError is not a function").
Proof. intros H. unfold UseChat.sendMessage. rewrite H. reflexivity. Qed.

(** With nobody logged in the hook returns at once, whatever the
    content. *)
Lemma useChat_sendMessage_no_user content roomId messageType w :
  UseChat.sendMessage None content roomId messageType w = (w, UseChat.Returned).
Proof. reflexivity. Qed.

(** C5 at the failing inputs: the empty message, a blank one and one of
    1001 characters, sent by a logged-in user of a connected client.
    Each call ends in a [TypeError]; the wire is as before (this much
    of the claim holds) and the store's [error] is still [null]. *)
Theorem useChat_sendMessage_invalid_throws :
  let long := String.string_of_list_ascii (replicate 1001 (Ascii.ascii_of_nat 97)) in
  let thrown := UseChat.TypeError "chatContext.setError is not a function" in
  UseChat.sendMessage (Some Online.user) "" "r1" None Online.world
    = (Online.world, thrown) ∧
  UseChat.sendMessage (Some Online.user) "   " "r1" None Online.world
    = (Online.world, thrown) ∧
  UseChat.sendMessage (Some Online.user) long "r1" None Online.world
    = (Online.world, thrown) ∧
  ChatStore.error (ChatContext.chat (ChatContext.stores Online.world)) = None.
Proof.
  intros long thrown. split; [|split; [|split]].
  - by apply useChat_sendMessage_invalid, validateMessage_rejects; left.
  - by apply useChat_sendMessage_invalid, validateMessage_rejects; right; left.
  - apply useChat_sendMessage_invalid, validateMessage_rejects. right; right.
    by vm_compute.
  - reflexivity.
Qed.
End validation.

(** ** Remote typing entries over time *)

Section typing_expiry.
Import ChatStore ChatContext.
Implicit Types (s : Stores) (k : string * string) (ev : ChatEvent).

Lemma addTypingUser_keeps_keys (c : ChatState) user k :
  k ∈ TypingIndicator.key <$> typingUsers c →
  k ∈ TypingIndicator.key <$> typingUsers (addTypingUser user c).
Proof.
  intros Hk.
  destruct (decide (TypingIndicator.key user ∈ TypingIndicator.key <$> typingUsers c))
    as [Hin|Hnin].
  - destruct (addTypingUser_present c user Hin) as (i & old & Hi & Ho & ->).
    rewrite list_fmap_insert, list_insert_id; [done|].
    by rewrite list_lookup_fmap, Hi, <- Ho.
  - rewrite (addTypingUser_absent c user Hnin), fmap_app. apply elem_of_app. by left.
Qed.

Lemma addTypingUser_has_key (c : ChatState) user :
  TypingIndicator.key user ∈ TypingIndicator.key <$> typingUsers (addTypingUser user c).
Proof.
  destruct (decide (TypingIndicator.key user ∈ TypingIndicator.key <$> typingUsers c))
    as [Hin|Hnin].
  - by apply addTypingUser_keeps_keys.
  - rewrite (addTypingUser_absent c user Hnin), fmap_app. apply elem_of_app. right.
    apply list_elem_of_here.
Qed.

Lemma removeTypingUser_keeps_other_keys (c : ChatState) userId roomId k :
  k ≠ (userId, roomId) →
  k ∈ TypingIndicator.key <$> typingUsers c →
  k ∈ TypingIndicator.key <$> typingUsers (removeTypingUser userId roomId c).
Proof.
  intros Hne. unfold removeTypingUser. simpl. rewrite !list_elem_of_fmap.
  intros (x & -> & Hx). exists x. split; [done|].
  apply list_elem_of_In, List.filter_In. split; [by apply list_elem_of_In|].
  apply negb_true_iff. by apply same_typing_key_false.
Qed.

(** One event keeps the entry of a key unless it is that key's
    [user_typing] with [is_typing = false]. *)
Lemma deliver_keeps_typing_key captured ev s userId roomId :
  (∀ n, ev ≠ user_typing userId roomId n false) →
  (userId, roomId) ∈ TypingIndicator.key <$> typingUsers (chat s) →
  (userId, roomId) ∈ TypingIndicator.key <$> typingUsers (chat (deliver captured ev s)).
Proof.
  intros Hev Hk. destruct ev; simpl; try done.
  unfold handleUserTyping. destruct is_typing; simpl.
  - by apply addTypingUser_keeps_keys.
  - apply removeTypingUser_keeps_other_keys; [|done].
    intros [= -> ->]. by eapply Hev.
Qed.

Lemma run_keeps_typing_key captured evs s userId roomId :
  (∀ n, user_typing userId roomId n false ∉ evs) →
  (userId, roomId) ∈ TypingIndicator.key <$> typingUsers (chat s) →
  (userId, roomId) ∈ TypingIndicator.key
    <$> typingUsers (chat (fold_left (λ acc ev, deliver captured ev acc) evs s)).
Proof.
  revert s; induction evs as [|ev evs IH]; intros s Hno Hk; simpl; [done|].
  apply IH.
  - intros n Hin. apply (Hno n). by apply list_elem_of_further.
  - apply deliver_keeps_typing_key; [|done].
    intros n ->. apply (Hno n). apply list_elem_of_here.
Qed.

Lemma arrived_by_in_trace now (trace : list (Z * ChatEvent)) ev :
  ev ∈ arrived_by now trace → ∃ t, (t, ev) ∈ trace.
Proof.
  unfold arrived_by. rewrite list_elem_of_fmap. intros ([t e] & -> & Hin).
  exists t. apply list_elem_of_In. apply list_elem_of_In in Hin.
  by apply List.filter_In in Hin as [? _].
Qed.

(** C4, as the code has it. An entry that a [user_typing] event with
    [is_typing = true] put in the typing list at time [t0] is there at
    every later time, the end of the 5 s window and any time after it
    included, as long as no [user_typing] event with [is_typing = false]
    for the same user and room has arrived: the store has no timer and
    no sweep, and only that event removes the entry. *)
Theorem typing_entry_stays_until_stopped
    (s0 : Stores) (t0 now : Z) (userId roomId name : string)
    (trace : list (Z * ChatEvent)) :
  t0 ≤ now →
  (∀ t n, (t, user_typing userId roomId n false) ∉ trace) →
  (userId, roomId) ∈ TypingIndicator.key
    <$> typingUsers
          (chat (stores_at now s0 ((t0, user_typing userId roomId name true) :: trace))).
Proof.
  intros Hle Hno. unfold stores_at, arrived_by, run_registered.
  cbn [List.filter fst]. apply Z.leb_le in Hle. rewrite Hle. cbn [fmap list_fmap snd fold_left].
  apply run_keeps_typing_key.
  - intros n Hin. destruct (arrived_by_in_trace now trace _ Hin) as [t Ht].
    by apply (Hno t n).
  - unfold deliver, handleUserTyping. simpl.
    apply (addTypingUser_has_key _ (TypingIndicator.mk userId roomId name true)).
Qed.

(** C4 at a concrete trace: bob starts typing in r1 at time 0, a message
    arrives two seconds later, and twice the window after the start the
    entry is still listed. *)
Lemma typing_entry_stays_until_stopped_witness :
  let m := Message.mk "m1" "u1" "hi" "r1" "text" "t" "ann" [] [] in
  ("u2", "r1") ∈ TypingIndicator.key
    <$> typingUsers
          (chat (stores_at (0 + 2 * Constants.TYPING_TIMEOUT) initialStores
                   [(0, user_typing "u2" "r1" "bob" true); (2000, new_message m)])).
Proof.
  intros m.
  apply (typing_entry_stays_until_stopped initialStores 0
           (0 + 2 * Constants.TYPING_TIMEOUT) "u2" "r1" "bob" [(2000, new_message m)]).
  - vm_compute. discriminate.
  - intros t n Hin. apply list_elem_of_singleton in Hin. discriminate.
Defined.

(** C4 fails: with no event after bob's typing start, the entry is in
    the list when the window ends and a thousand windows later. *)
Lemma typing_entry_outlives_window :
  let entry := TypingIndicator.mk "u2" "r1" "bob" true in
  let trace := [(0, user_typing "u2" "r1" "bob" true)] in
  typingUsers (chat (stores_at 0 initialStores trace)) = [entry] ∧
  typingUsers (chat (stores_at (0 + Constants.TYPING_TIMEOUT) initialStores trace))
    = [entry] ∧
  typingUsers (chat (stores_at (0 + 1000 * Constants.TYPING_TIMEOUT) initialStores trace))
    = [entry].
Proof. by repeat split. Qed.
End typing_expiry.

(** ** Presence: the [user_offline] delta *)

Section presence.
Import UserStore ChatContext.
Implicit Types (s : Stores) (u : User.t).


End presence.

(** ** The socket singleton: [connect], [emit] and [emitToChat] *)

Section socket_api.
Import SocketAPI.
Implicit Types (a : t) (p : Promise) (ev : TransportEvent) (evs : list TransportEvent).

Lemma connect_connected a :
  is_connected (socket a) = true → connect a = (a, Resolved).
Proof. intros H. unfold connect. by rewrite H. Qed.

Lemma connect_not_connected a :
  is_connected (socket a) = false →
  snd (connect a) = Pending ∧
  transports (fst (connect a)) = transports a ++ [Main] ∧
  socket (fst (connect a)) = Some (mkSocket false (length (transports a))) ∧
  connectionState (fst (connect a))
  = mkConn (isConnected (connectionState a)) true None.
Proof. intros H. unfold connect. rewrite H. by repeat split. Qed.

Lemma on_transport_settled ev a p :
  settled p = true → snd (on_transport ev (a, p)) = p.
Proof. by destruct p, ev. Qed.

Lemma run_transport_settled evs a p :
  settled p = true → snd (run_transport evs (a, p)) = p.
Proof.
  revert a; induction evs as [|ev evs IH]; intros a Hp; [done|].
  unfold run_transport in *. cbn [fold_left].
  pose proof (on_transport_settled ev a p Hp) as E.
  destruct (on_transport ev (a, p)) as [a' p']. simpl in E. subst p'.
  by apply IH.
Qed.

Lemma run_transport_app evs more (st : t * Promise) :
  run_transport (evs ++ more) st = run_transport more (run_transport evs st).
Proof. unfold run_transport. apply fold_left_app. Qed.

Lemma run_transport_disconnects pre a :
  Forall (eq TDisconnect) pre → snd (run_transport pre (a, Pending)) = Pending.
Proof.
  revert a; induction pre as [|ev pre IH]; intros a Hpre; [done|].
  apply Forall_cons in Hpre as [<- Hpre]. unfold run_transport in *. cbn [fold_left].
  change (on_transport TDisconnect (a, Pending))
    with (fst (on_transport TDisconnect (a, Pending)), Pending).
  apply IH, Hpre.
Qed.

Lemma run_transport_first_event pre ev post a :
  Forall (eq TDisconnect) pre →
  snd (run_transport (pre ++ ev :: post) (a, Pending))
  = match ev with
    | TConnect => Resolved
    | TDisconnect => snd (run_transport post (run_transport (pre ++ [ev]) (a, Pending)))
    | TError message => Rejected message
    | TConnectError message => Rejected message
    end.
Proof.
  intros Hpre. rewrite (run_transport_app pre (ev :: post)).
  pose proof (run_transport_disconnects pre a Hpre) as Hp.
  destruct (run_transport pre (a, Pending)) as [a' p'] eqn:E. simpl in Hp. subst p'.
  destruct ev.
  - change (run_transport (TConnect :: post) (a', Pending))
      with (run_transport post (on_transport TConnect (a', Pending))).
    by apply run_transport_settled.
  - rewrite (run_transport_app pre [TDisconnect]), E. reflexivity.
  - change (run_transport (TError message :: post) (a', Pending))
      with (run_transport post (on_transport (TError message) (a', Pending))).
    by apply run_transport_settled.
  - change (run_transport (TConnectError message :: post) (a', Pending))
      with (run_transport post (on_transport (TConnectError message) (a', Pending))).
    by apply run_transport_settled.
Qed.

(** C8, as the code has it. A call to [connect()] while the main socket
    is connected resolves at once, builds no socket and leaves every
    field of the singleton as it was. Otherwise the promise is pending
    after the call and settles at most once, on the first event of the
    new socket that is not a disconnect: it resolves on [connect] and is
    rejected on [error] or [connect_error]; events after that do not
    change it, and disconnects alone leave it pending. *)
Theorem connect_settles_once a (pre post more : list TransportEvent) :
  Forall (eq TDisconnect) pre →
  (is_connected (socket a) = true → connect a = (a, Resolved)) ∧
  (is_connected (socket a) = false →
     snd (run_transport pre (connect a)) = Pending ∧
     snd (run_transport (pre ++ TConnect :: post) (connect a)) = Resolved ∧
     (∀ message,
        snd (run_transport (pre ++ TError message :: post) (connect a))
        = Rejected message) ∧
     (∀ message,
        snd (run_transport (pre ++ TConnectError message :: post) (connect a))
        = Rejected message)) ∧
  (settled (snd (run_transport post (connect a))) = true →
     snd (run_transport (post ++ more) (connect a))
     = snd (run_transport post (connect a))).
Proof.
  intros Hpre. split; [apply connect_connected|]. split.
  - intros Hc. destruct (connect_not_connected a Hc) as (Hp & _).
    destruct (connect a) as [a1 p1]. simpl in Hp. subst p1.
    split; [by apply run_transport_disconnects|].
    split; [by rewrite run_transport_first_event|].
    split; intros message; by rewrite run_transport_first_event.
  - intros Hs. rewrite run_transport_app.
    destruct (run_transport post (connect a)) as [a1 p1]. simpl in *.
    by apply run_transport_settled.
Qed.

(** C8 at a concrete client: a first call is answered by the transport
    after one disconnect, a second call finds the socket connected. *)
Lemma connect_settles_once_witness :
  let a1 := fst (run_transport [TDisconnect; TConnect] (connect initial)) in
  snd (run_transport [TDisconnect; TConnect; TError "late"] (connect initial)) = Resolved ∧
  connect a1 = (a1, Resolved) ∧
  transports (fst (connect a1)) = [Main].
Proof.
  intros a1.
  destruct (connect_settles_once initial [TDisconnect] [TError "late"] [])
    as (_ & Hfresh & _); [by repeat constructor|].
  destruct (Hfresh eq_refl) as (_ & Hres & _).
  destruct (connect_settles_once a1 [] [] []) as (Hnoop & _); [constructor|].
  split; [exact Hres|]. split; [exact (Hnoop eq_refl)|]. reflexivity.
Defined.

(** C8 fails: the socket of a fresh [connect()] first reports
    [connect_error] and then connects on a retry. The client ends up
    connected, but the promise of the call was rejected and is never
    resolved. *)
Lemma connect_rejected_not_resolved :
  let st := run_transport [TConnectError "refused"; TConnect] (connect initial) in
  snd (connect initial) = Pending ∧
  snd st = Rejected "refused" ∧
  isConnected (connectionState (fst st)) = true ∧
  (∀ evs, snd (run_transport evs st) = Rejected "refused").
Proof.
  intros st. split; [done|]. split; [done|]. split; [done|].
  intros evs. subst st.
  assert (snd (run_transport [TConnectError "refused"; TConnect] (connect initial))
          = Rejected "refused") as Hp by reflexivity.
  destruct (run_transport [TConnectError "refused"; TConnect] (connect initial))
    as [a p]. cbn [snd] in Hp. subst p.
  by apply run_transport_settled.
Qed.

(** C10. [emit] with the main socket absent or not connected, and
    [emitToChat] with the chat socket absent or not connected, return
    the singleton as it was: nothing is added to the wire, no error is
    recorded in the connection state, nothing is kept for a later retry.
    The functions are total, so nothing is thrown either. *)
Theorem emit_without_connection_is_noop (event : string) (data : Payload) a :
  (socket a = None ∨ (∃ so, socket a = Some so ∧ connected so = false) →
     emit event data a = a) ∧
  (chatSocket a = None ∨ (∃ so, chatSocket a = Some so ∧ connected so = false) →
     emitToChat event data a = a).
Proof.
  split; intros H; [unfold emit | unfold emitToChat].
  - by destruct H as [->|(so & -> & Hso)]; simpl; [|rewrite Hso].
  - by destruct H as [->|(so & -> & Hso)]; simpl; [|rewrite Hso].
Qed.

(** C10 at concrete clients: one that never connected, and one whose
    sockets both dropped. *)
Lemma emit_without_connection_is_noop_witness :
  let dropped :=
    fst (on_chat_transport TDisconnect (on_transport TDisconnect (Online.api, Pending))) in
  emit "authenticate" [("token", VStr "t")] initial = initial ∧
  emitToChat "send_message" [("content", VStr "hi")] initial = initial ∧
  emit "logout" [] dropped = dropped ∧
  emitToChat "send_message" [("content", VStr "hi")] dropped = dropped ∧
  wire dropped = wire Online.api.
Proof.
  intros dropped.
  destruct (emit_without_connection_is_noop "authenticate" [("token", VStr "t")] initial)
    as [H1 _].
  destruct (emit_without_connection_is_noop "send_message" [("content", VStr "hi")] initial)
    as [_ H2].
  destruct (emit_without_connection_is_noop "logout" [] dropped) as [H3 _].
  destruct (emit_without_connection_is_noop "send_message" [("content", VStr "hi")] dropped)
    as [_ H4].
  split; [apply H1; by left|]. split; [apply H2; by left|].
  split; [apply H3; right; by eexists|]. split; [apply H4; right; by eexists|].
  vm_compute. reflexivity.
Defined.
End socket_api.

(** ** Unread counters of the reducer-based provider *)

Section unread_counters.
Import ChatProvider.
Implicit Types (p : Provider) (s : ChatState) (message : Message).

Lemma js_succ_exact (n : Z) : - 2 ^ 53 - 1 ≤ n < 2 ^ 53 → js_succ n = n + 1.
Proof.
  intros Hn. unfold js_succ. cbv zeta.
  destruct (Z.leb_spec (Z.abs (n + 1)) (2 ^ 53)) as [_|Hgt]; [done|]. lia.
Qed.


Lemma strict_ne_other_room s r :
  current_room s ≠ Some r → strict_ne (activeRoom_id (activeRoom s)) r = true.
Proof.
  unfold current_room. destruct (activeRoom s) as [[i|room]|]; simpl; try done.
  intros H. apply negb_true_iff, String.eqb_neq. congruence.
Qed.

(** [message:new] for a room whose ledger the [messages] object holds
    itself, or whose id no property of [Object.prototype] has: the two
    dispatches go through, and only the room's ledger and count
    change. *)
Lemma on_message_new_done now message p :
  inherited (roomId message) = false ∨ is_Some (messages (state p) !! roomId message) →
  ∃ p1,
    on_message_new now message p = Done p1 ∧
    messages (state p1)
    = <[roomId message := ledger p (roomId message) ++ [message]]> (messages (state p)) ∧
    unreadCounts (state p1)
    = <[roomId message :=
          if strict_ne (activeRoom_id (activeRoom (state p))) (roomId message)
          then plus_one (roomId message) (get (unreadCounts (state p)) (roomId message))
          else Number 0]> (unreadCounts (state p)) ∧
    activeRoom (state p1) = activeRoom (state p) ∧
    emitted p1 = emitted p.
Proof.
  intros Hkey. unfold on_message_new, dispatch, ledger. cbn [chatReducer].
  assert (get (messages (state p)) (roomId message)
          = match messages (state p) !! roomId message with
            | Some l => Own l
            | None => Undefined
            end) as ->.
  { unfold get. destruct (messages (state p) !! roomId message) as [l|] eqn:E; [done|].
    destruct Hkey as [->|[l Hl]]; [done | discriminate]. }
  destruct (messages (state p) !! roomId message) as [l|]; cbn [and_then default];
    destruct (find _ (rooms (state p))); cbn; eexists; repeat split.
Qed.

Lemma joinRoom_done now roomId p (so : unit) (u : string) :
  joinRoom (Some so) (Some u) now roomId p
  = Done (mkProvider
            (mkState (Some (ActiveId roomId)) (rooms (state p)) (messages (state p))
                     (typingUsers (state p)) (onlineUsers (state p))
                     (<[roomId := Number 0]> (unreadCounts (state p)))
                     (<[roomId := now]> (lastReadTimestamps (state p))))
            (emitted p ++ [("room:join", [("roomId", SocketAPI.VStr roomId)])])).
Proof. reflexivity. Qed.

Lemma joinRoom_guard now roomId p socket user :
  socket = None ∨ user = None → joinRoom socket user now roomId p = Done p.
Proof. intros [-> | ->]; [done | by destruct socket]. Qed.

(** Where the count holds: for a room id that is not the name of a
    property of [Object.prototype], with a count [n] below [2^53], a
    message arriving for a room other than the current one makes the
    room's count [n + 1] and leaves the other counts alone; joining a
    room makes it the current room and its count zero. *)
Lemma unread_counter_counts_and_resets
    (now : string) p message (socket : option unit) (user : option string)
    (joined : string) (n : Z) :
  inherited (roomId message) = false →
  counted p (roomId message) = Some n → 0 ≤ n < 2 ^ 53 →
  current_room (state p) ≠ Some (roomId message) →
  is_Some socket → is_Some user →
  ∃ p1 p2,
    on_message_new now message p = Done p1 ∧
    joinRoom socket user now joined p = Done p2 ∧
    unreadCounts (state p1) !! roomId message = Some (Number (n + 1)) ∧
    (∀ r, r ≠ roomId message →
          unreadCounts (state p1) !! r = unreadCounts (state p) !! r) ∧
    current_room (state p2) = Some joined ∧
    unreadCounts (state p2) !! joined = Some (Number 0) ∧
    (∀ r, r ≠ joined → unreadCounts (state p2) !! r = unreadCounts (state p) !! r).
Proof.
  intros Hkey Hn Hrange Hother [so ->] [u ->].
  destruct (on_message_new_done now message p (or_introl Hkey))
    as (p1 & Hp1 & _ & Hcounts & _).
  exists p1. eexists. split; [exact Hp1|]. split; [apply joinRoom_done|].
  rewrite Hcounts, strict_ne_other_room by done.
  cbn [state unreadCounts current_room activeRoom].
  split.
  - rewrite lookup_insert_eq. f_equal. unfold counted in Hn. unfold get. rewrite Hkey.
    destruct (unreadCounts (state p) !! roomId message) as [[k|k j]|]; cbn [plus_one];
      try discriminate.
    + injection Hn as ->. rewrite js_succ_exact; [done | lia].
    + injection Hn as <-. by vm_compute.
  - split; [intros r Hr; by rewrite lookup_insert_ne|].
    split; [done|]. split; [by rewrite lookup_insert_eq|].
    intros r Hr. by rewrite lookup_insert_ne.
Qed.

(** In room r1 with three unread messages in r2, a fourth arrives for
    r2; then the client joins r2. *)
Lemma unread_counter_counts_and_resets_example :
  let p := mkProvider
             (mkState (Some (ActiveId "r1")) [] ∅ ∅ ∅
                      {[ "r2" := Number 3; "r3" := Number 7 ]} ∅) [] in
  let message := mkMessage "m1" "r2" "u2" "hi" "t1" in
  ∃ p1 p2,
    on_message_new "t2" message p = Done p1 ∧
    joinRoom (Some ()) (Some "u1") "t3" "r2" p1 = Done p2 ∧
    unreadCounts (state p1) !! "r2" = Some (Number 4) ∧
    unreadCounts (state p1) !! "r3" = Some (Number 7) ∧
    unreadCounts (state p2) !! "r2" = Some (Number 0) ∧
    unreadCounts (state p2) !! "r3" = Some (Number 7).
Proof.
  intros p message.
  destruct (unread_counter_counts_and_resets "t2" p message (Some ()) (Some "u1") "r2" 3)
    as (p1 & _ & Hp1 & _ & H1 & H2 & _); try done; try by eexists.
  eexists p1, _. split; [exact Hp1|]. split; [apply joinRoom_done|].
  split; [exact H1|]. split; [by rewrite H2|].
  cbn [state unreadCounts]. split; [by rewrite lookup_insert_eq|].
  rewrite lookup_insert_ne by done. by rewrite H2.
Qed.

(** C6 at the failing input. A message arrives for a room whose id is
    the name of a property every object inherits, here [constructor],
    while the client is in no room. On a fresh provider
    [state.messages[roomId]] is that inherited function, spreading it
    throws, and the provider goes down with the count not raised. With
    the room's ledger loaded first the ledger is found, but
    [state.unreadCounts[roomId]] is the inherited function still: the
    count becomes a piece of text, and the next message adds a
    character to it. *)
Theorem unread_counter_breaks_on_inherited_room_id :
  let message := mkMessage "m1" "constructor" "u2" "hi" "t1" in
  let fresh := mkProvider initialState [] in
  let loaded := mkProvider (mkState None [] {[ "constructor" := [] ]} ∅ ∅ ∅ ∅) [] in
  let once :=
    mkProvider (mkState None [] {[ "constructor" := [message] ]} ∅ ∅
                        {[ "constructor" := Text "constructor" 1 ]} ∅) [] in
  let twice :=
    mkProvider (mkState None [] {[ "constructor" := [message; message] ]} ∅ ∅
                        {[ "constructor" := Text "constructor" 2 ]} ∅) [] in
  current_room (state fresh) = None ∧
  on_message_new "t2" message fresh
  = Thrown "TypeError" ∧
  dispatch "t0" (SET_MESSAGES "constructor" []) fresh = Done loaded ∧
  on_message_new "t2" message loaded = Done once ∧
  on_message_new "t3" message once = Done twice.
Proof. by vm_compute. Qed.

(** Once [joinRoom] has stored the room id itself as the active room,
    the reducer's [state.activeRoom?.id] is [undefined], and a message
    for the very room the client is in is counted as unread as well. *)
Lemma unread_counted_in_joined_room :
  ∃ p p1,
    joinRoom (Some ()) (Some "u1") "t0" "r1" (mkProvider initialState []) = Done p ∧
    on_message_new "t1" (mkMessage "m1" "r1" "u2" "hi" "t1") p = Done p1 ∧
    current_room (state p) = Some "r1" ∧
    unreadCounts (state p) !! "r1" = Some (Number 0) ∧
    unreadCounts (state p1) !! "r1" = Some (Number 1).
Proof. eexists _, _. by repeat split. Qed.
End unread_counters.

(** ** More on the chat store: removing and updating entries *)

Section chat_store_more.
Import ChatStore.
Implicit Types (s : ChatState) (m : Message.t) (user : TypingIndicator.t).

Lemma with_messages_same s : with_messages (messages s) s = s.
Proof. by destruct s. Qed.

Lemma with_typingUsers_same s : with_typingUsers (typingUsers s) s = s.
Proof. by destruct s. Qed.

Lemma filter_all_true {A} (f : A → bool) (l : list A) :
  (∀ x, x ∈ l → f x = true) → List.filter f l = l.
Proof.
  induction l as [|x l IH]; intros H; simpl; [done|].
  rewrite (H x (list_elem_of_here _ _)), IH; [done|].
  intros y Hy. apply H. by apply list_elem_of_further.
Qed.

(** X1. [removeMessage] leaves no entry with the id, whatever the ledger;
    and it undoes [addMessage] of a message whose id the ledger did not
    have. *)
Theorem removeMessage_undoes_addMessage m s :
  (∀ x, x ∈ messages (removeMessage (Message.message_id m) (addMessage m s)) →
        Message.message_id x ≠ Message.message_id m) ∧
  ((∀ x, x ∈ messages s → Message.message_id x ≠ Message.message_id m) →
   removeMessage (Message.message_id m) (addMessage m s) = s).
Proof.
  split.
  - intros x Hx. apply list_elem_of_In, List.filter_In in Hx as [_ Hx].
    apply negb_true_iff in Hx. by apply String.eqb_neq.
  - intros Hfresh. unfold removeMessage, addMessage.
    cbn [messages with_messages List.filter]. rewrite String.eqb_refl. cbn [negb].
    rewrite filter_all_true.
    + by destruct s.
    + intros x Hx. apply negb_true_iff, String.eqb_neq. by apply Hfresh.
Qed.

Lemma removeMessage_undoes_addMessage_witness :
  let m1 := Message.mk "m1" "u1" "hi" "r1" "text" "t0" "ann" [] [] in
  let m2 := Message.mk "m2" "u2" "yo" "r1" "text" "t1" "bob" [] [] in
  let s := addMessage m1 initialState in
  removeMessage "m2" (addMessage m2 s) = s.
Proof.
  intros m1 m2 s.
  destruct (removeMessage_undoes_addMessage m2 s) as [_ H].
  apply H. intros x Hx. apply list_elem_of_singleton in Hx as ->. discriminate.
Defined.

(** X2. [updateMessage] keeps the ledger's length; with no [message_id]
    among the updates it keeps every entry's id in place; and for an id
    the ledger does not have it changes nothing. *)
Theorem updateMessage_keeps_shape (messageId : string) (updates : Message.partial) s :
  length (messages (updateMessage messageId updates s)) = length (messages s) ∧
  (Message.p_message_id updates = None →
   Message.message_id <$> messages (updateMessage messageId updates s)
   = Message.message_id <$> messages s) ∧
  ((∀ x, x ∈ messages s → Message.message_id x ≠ messageId) →
   updateMessage messageId updates s = s).
Proof.
  unfold updateMessage. cbn [messages with_messages].
  split; [by rewrite length_fmap|]. split.
  - intros Hid. rewrite <- list_fmap_compose. apply list_fmap_ext.
    intros i x _. simpl. destruct (String.eqb _ _); [|done].
    unfold Message.spread. simpl. by rewrite Hid.
  - intros Hnone.
    assert ((λ msg, if String.eqb (Message.message_id msg) messageId
                    then Message.spread msg updates else msg) <$> messages s
            = messages s) as ->; [|apply with_messages_same].
    rewrite <- (list_fmap_id (messages s)) at 2. apply list_fmap_ext.
    intros i x Hx. simpl.
    apply list_elem_of_lookup_2, Hnone, String.eqb_neq in Hx. by rewrite Hx.
Qed.

Lemma updateMessage_keeps_shape_witness :
  let m1 := Message.mk "m1" "u1" "hi" "r1" "text" "t0" "ann" [] [] in
  let s := addMessage m1 initialState in
  updateMessage "m9" (Message.only_read_by ["u2"]) s = s ∧
  Message.message_id <$> messages (updateMessage "m1" (Message.only_read_by ["u2"]) s)
  = ["m1"].
Proof.
  intros m1 s.
  destruct (updateMessage_keeps_shape "m9" (Message.only_read_by ["u2"]) s) as (_ & _ & H).
  destruct (updateMessage_keeps_shape "m1" (Message.only_read_by ["u2"]) s) as (_ & H' & _).
  split.
  - apply H. intros x Hx. apply list_elem_of_singleton in Hx as ->. discriminate.
  - by rewrite H'.
Defined.

(** X3. [removeTypingUser] leaves no entry for the pair, whatever the list;
    and it undoes [addTypingUser] of a pair the list did not have. *)
Theorem removeTypingUser_undoes_addTypingUser user s :
  (∀ userId roomId,
     (userId, roomId) ∉ TypingIndicator.key <$> typingUsers (removeTypingUser userId roomId s)) ∧
  (TypingIndicator.key user ∉ TypingIndicator.key <$> typingUsers s →
   removeTypingUser (TypingIndicator.user_id user) (TypingIndicator.room_id user)
     (addTypingUser user s) = s).
Proof.
  split.
  - intros userId roomId Hin. apply list_elem_of_fmap in Hin as (x & Hk & Hx).
    apply list_elem_of_In, List.filter_In in Hx as [_ Hx].
    apply negb_true_iff, same_typing_key_false in Hx. by apply Hx.
  - intros Hnin. unfold removeTypingUser.
    rewrite (addTypingUser_absent s user Hnin).
    rewrite List.filter_app. cbn [List.filter].
    assert (same_typing_key (TypingIndicator.user_id user) (TypingIndicator.room_id user) user
            = true) as -> by (by apply same_typing_key_true).
    cbn [negb]. rewrite app_nil_r, filter_all_true.
    + unfold addTypingUser. destruct (0 <=? _); by destruct s.
    + intros x Hx. apply negb_true_iff, same_typing_key_false. intros Hk.
      change (TypingIndicator.key x = TypingIndicator.key user) in Hk.
      apply Hnin. rewrite <- Hk. apply list_elem_of_fmap. eauto.
Qed.

Lemma removeTypingUser_undoes_addTypingUser_witness :
  let ann := TypingIndicator.mk "u1" "r1" "ann" true in
  let bob := TypingIndicator.mk "u2" "r1" "bob" true in
  let s := addTypingUser ann initialState in
  removeTypingUser "u2" "r1" (addTypingUser bob s) = s.
Proof.
  intros ann bob s.
  destruct (removeTypingUser_undoes_addTypingUser bob s) as [_ H].
  apply H. vm_compute. intros Hin. apply list_elem_of_singleton in Hin. discriminate.
Defined.

Lemma filter_key_insert (l : list TypingIndicator.t) (i : nat) old user :
  NoDup (TypingIndicator.key <$> l) →
  l !! i = Some old →
  TypingIndicator.key old = TypingIndicator.key user →
  List.filter (same_typing_key (TypingIndicator.user_id user) (TypingIndicator.room_id user))
              (<[i := user]> l) = [user].
Proof.
  set (p := same_typing_key _ _).
  assert (Hp : p user = true) by (by apply same_typing_key_true).
  assert (Hrest : ∀ l', TypingIndicator.key user ∉ TypingIndicator.key <$> l' →
                        List.filter p l' = []).
  { induction l' as [|x l' IH]; simpl; [done|]. intros Hn.
    apply not_elem_of_cons in Hn as [Hx Hl].
    assert (p x = false) as ->
      by (apply same_typing_key_false; intros E; apply Hx; exact (eq_sym E)).
    by apply IH. }
  revert i; induction l as [|x l IH]; intros i Hnd Hi Hk; [done|].
  cbn [fmap list_fmap] in Hnd. apply NoDup_cons in Hnd as [Hx Hnd].
  destruct i as [|i]; simpl in *.
  - injection Hi as ->. rewrite Hp, Hrest; [done|]. by rewrite <- Hk.
  - assert (p x = false) as ->.
    { apply same_typing_key_false. intros E. apply Hx.
      change (TypingIndicator.user_id user, TypingIndicator.room_id user)
        with (TypingIndicator.key user) in E.
      rewrite E, <- Hk. apply list_elem_of_fmap. exists old. split; [done|].
      by eapply list_elem_of_lookup_2. }
    by apply IH.
Qed.

(** X4. On a list with one entry per pair, after [addTypingUser user] the
    entry for the user's pair is [user] itself and there is one of it:
    what the last event said is what the list shows. *)
Theorem addTypingUser_last_write_wins user s :
  NoDup (TypingIndicator.key <$> typingUsers s) →
  List.filter (same_typing_key (TypingIndicator.user_id user) (TypingIndicator.room_id user))
              (typingUsers (addTypingUser user s)) = [user].
Proof.
  intros Hnd.
  destruct (decide (TypingIndicator.key user ∈ TypingIndicator.key <$> typingUsers s))
    as [Hin|Hnin].
  - destruct (addTypingUser_present s user Hin) as (i & old & Hi & Hk & ->).
    by eapply filter_key_insert.
  - rewrite (addTypingUser_absent s user Hnin), List.filter_app. cbn [List.filter].
    assert (same_typing_key (TypingIndicator.user_id user) (TypingIndicator.room_id user) user
            = true) as -> by (by apply same_typing_key_true).
    assert (List.filter
              (same_typing_key (TypingIndicator.user_id user) (TypingIndicator.room_id user))
              (typingUsers s) = []) as ->; [|done].
    induction (typingUsers s) as [|x l IH]; simpl; [done|].
    cbn [fmap list_fmap] in Hnin, Hnd.
    apply not_elem_of_cons in Hnin as [Hx Hl]. apply NoDup_cons in Hnd as [_ Hnd].
    assert (same_typing_key (TypingIndicator.user_id user) (TypingIndicator.room_id user) x
            = false) as ->; [|by apply IH].
    apply same_typing_key_false. intros E. apply Hx. exact (eq_sym E).
Qed.

Lemma addTypingUser_last_write_wins_witness :
  let s := TypingOps.run [TypingOps.Add (TypingIndicator.mk "u1" "r1" "ann" true);
                          TypingOps.Add (TypingIndicator.mk "u1" "r2" "ann" true)]
                         initialState in
  let again := TypingIndicator.mk "u1" "r1" "anna" true in
  List.filter (same_typing_key "u1" "r1") (typingUsers (addTypingUser again s)) = [again].
Proof.
  intros s again.
  apply (addTypingUser_last_write_wins again s).
  apply (bool_decide_unpack _). by vm_compute.
Defined.
End chat_store_more.

(** ** The user store *)

Section user_store.
Import UserStore.
Implicit Types (s : UserState) (u user : User.t) (l : list User.t).

Lemma same_user_true (userId : string) u :
  String.eqb (User.user_id u) userId = true ↔ User.user_id u = userId.
Proof. apply String.eqb_eq. Qed.

Lemma addOnlineUser_ids user s :
  User.user_id <$> onlineUsers (addOnlineUser user s)
  = if decide (User.user_id user ∈ User.user_id <$> onlineUsers s)
    then User.user_id <$> onlineUsers s
    else (User.user_id <$> onlineUsers s) ++ [User.user_id user].
Proof.
  unfold addOnlineUser.
  set (p := λ u0, String.eqb (User.user_id u0) (User.user_id user)).
  destruct (Z.leb_spec 0 (findIndex p (onlineUsers s))) as [Hge|Hlt].
  - destruct (findIndex_hit p (onlineUsers s) Hge) as (old & Hold & Hp).
    apply String.eqb_eq in Hp. cbn [onlineUsers with_onlineUsers].
    unfold assign_index. rewrite list_fmap_insert, list_insert_id
      by (by rewrite list_lookup_fmap, Hold, <- Hp).
    rewrite decide_True; [done|].
    rewrite <- Hp. apply list_elem_of_fmap. exists old. split; [done|].
    by eapply list_elem_of_lookup_2.
  - cbn [onlineUsers with_onlineUsers]. rewrite fmap_app. rewrite decide_False; [done|].
    intros Hin. apply list_elem_of_fmap in Hin as (x & Hk & Hx).
    assert (p x = false) as Hf by (apply (findIndex_miss p (onlineUsers s)); [lia | done]).
    apply String.eqb_neq in Hf. by apply Hf.
Qed.

Lemma filter_ids_NoDup (f : User.t → bool) l :
  NoDup (User.user_id <$> l) → NoDup (User.user_id <$> List.filter f l).
Proof.
  induction l as [|x l IH]; simpl; [done|].
  rewrite NoDup_cons. intros [Hx Hl]. destruct (f x); simpl; [|auto].
  apply NoDup_cons. split; [|auto]. intros Hin. apply Hx.
  apply list_elem_of_fmap in Hin as (y & Hy & Hin). apply list_elem_of_fmap.
  exists y. split; [done|]. apply list_elem_of_In.
  apply list_elem_of_In in Hin. by apply List.filter_In in Hin as [? _].
Qed.

Lemma patch_ids (userId : string) (updates : User.partial) l :
  User.p_user_id updates = None →
  User.user_id <$> (patch userId updates <$> l) = User.user_id <$> l.
Proof.
  intros Hid. rewrite <- list_fmap_compose. apply list_fmap_ext.
  intros i x _. unfold patch. simpl. destruct (String.eqb _ _); [|done].
  unfold User.spread. simpl. by rewrite Hid.
Qed.

(** X5. The online list keeps one entry per user id under any sequence of
    store actions, as long as each snapshot given to [setOnlineUsers]
    names a user once and no [updateUser] rewrites a user id:
    [addOnlineUser] for a listed user overwrites, [removeOnlineUser]
    and [updateUser] add nothing. *)
Theorem onlineUsers_one_entry_per_user (ops : list PresenceOps.op) s :
  NoDup (User.user_id <$> onlineUsers s) →
  Forall (λ o, match o with
               | PresenceOps.SetOnline users => NoDup (User.user_id <$> users)
               | PresenceOps.Update _ updates => User.p_user_id updates = None
               | _ => True
               end) ops →
  NoDup (User.user_id <$> onlineUsers (PresenceOps.run ops s)).
Proof.
  revert s; induction ops as [|o ops IH]; intros s Hs Hops; [done|].
  apply Forall_cons in Hops as [Ho Hops]. unfold PresenceOps.run in *. cbn [fold_left].
  apply IH; [|done]. destruct o as [users|user|userId|userId updates]; cbn [PresenceOps.apply].
  - done.
  - rewrite addOnlineUser_ids. case_decide; [done|].
    apply NoDup_app. split; [done|]. split; [|apply NoDup_singleton].
    intros k Hk Hk'. apply list_elem_of_singleton in Hk' as ->. done.
  - by apply filter_ids_NoDup.
  - cbn [updateUser onlineUsers]. by rewrite patch_ids.
Qed.

Lemma onlineUsers_one_entry_per_user_witness :
  let ann := User.mk "u1" "ann" "ann@example.org" true "t0" in
  let bob := User.mk "u2" "bob" "bob@example.org" true "t0" in
  let ann' := User.mk "u1" "ann" "ann@example.org" true "t5" in
  let ops := [PresenceOps.SetOnline [ann; bob]; PresenceOps.AddOnline ann';
              PresenceOps.RemoveOnline "u2"; PresenceOps.AddOnline bob] in
  NoDup (User.user_id <$> onlineUsers (PresenceOps.run ops initialState)) ∧
  onlineUsers (PresenceOps.run ops initialState) = [ann'; bob].
Proof.
  intros ann bob ann' ops. split; [|reflexivity].
  apply (onlineUsers_one_entry_per_user ops initialState).
  - apply NoDup_nil_2.
  - apply Forall_cons. split; [apply (bool_decide_unpack _); by vm_compute|].
    repeat (apply Forall_cons; split; [exact I|]). apply Forall_nil_2.
Defined.

(** X6. [updateUser] keeps both lists' lengths; for a user id found in
    neither list nor in the current user it changes nothing. *)
Theorem updateUser_unknown_user (userId : string) (updates : User.partial) s :
  length (onlineUsers (updateUser userId updates s)) = length (onlineUsers s) ∧
  length (allUsers (updateUser userId updates s)) = length (allUsers s) ∧
  (userId ∉ User.user_id <$> onlineUsers s →
   userId ∉ User.user_id <$> allUsers s →
   (∀ cu, currentUser s = Some cu → User.user_id (profile_user cu) ≠ userId) →
   updateUser userId updates s = s).
Proof.
  unfold updateUser. cbn [onlineUsers allUsers].
  split; [by rewrite length_fmap|]. split; [by rewrite length_fmap|].
  intros Ho Ha Hc.
  assert (∀ l, userId ∉ User.user_id <$> l → patch userId updates <$> l = l) as Hpatch.
  { intros l Hl. rewrite <- (list_fmap_id l) at 2. apply list_fmap_ext.
    intros i x Hx. unfold patch. simpl.
    destruct (String.eqb_spec (User.user_id x) userId) as [E|_]; [|done].
    exfalso. apply Hl. rewrite <- E. apply list_elem_of_fmap. exists x. split; [done|].
    by eapply list_elem_of_lookup_2. }
  rewrite (Hpatch _ Ho), (Hpatch _ Ha).
  destruct s as [on al [cu|] ld er]; cbn [currentUser onlineUsers allUsers isLoading error] in *;
    [|done].
  specialize (Hc cu eq_refl). apply String.eqb_neq in Hc. by rewrite Hc.
Qed.

Lemma updateUser_unknown_user_witness :
  let ann := User.mk "u1" "ann" "ann@example.org" true "t0" in
  let s := setAllUsers [ann] (setOnlineUsers [ann] initialState) in
  let offline := User.mk_partial None None None (Some false) (Some "t9") in
  updateUser "u7" offline s = s ∧
  onlineUsers (updateUser "u1" offline s) = [User.mk "u1" "ann" "ann@example.org" false "t9"].
Proof.
  intros ann s offline.
  destruct (updateUser_unknown_user "u7" offline s) as (_ & _ & H).
  split; [|reflexivity].
  apply H.
  - vm_compute. intros Hin. apply list_elem_of_singleton in Hin. discriminate.
  - vm_compute. intros Hin. apply list_elem_of_singleton in Hin. discriminate.
  - intros cu Hcu. discriminate.
Defined.
End user_store.

(** ** Inbound events and the chat store's other fields *)

Section inbound_frame.
Import ChatStore ChatContext.
Implicit Types (s : Stores) (ev : ChatEvent).

Lemma addTypingUser_frame user (c : ChatState) :
  messages (addTypingUser user c) = messages c ∧
  currentRoom (addTypingUser user c) = currentRoom c ∧
  isLoading (addTypingUser user c) = isLoading c ∧
  ChatStore.error (addTypingUser user c) = ChatStore.error c.
Proof. unfold addTypingUser. by destruct (0 <=? _). Qed.

Lemma deliver_frame captured ev s :
  currentRoom (chat (deliver captured ev s)) = currentRoom (chat s) ∧
  isLoading (chat (deliver captured ev s)) = isLoading (chat s) ∧
  ((∀ message, ev ≠ error message) →
   ChatStore.error (chat (deliver captured ev s)) = ChatStore.error (chat s)).
Proof.
  destruct ev; simpl; try done.
  - unfold handleUserTyping. destruct is_typing; simpl; [|done].
    destruct (addTypingUser_frame (TypingIndicator.mk user_id0 room_id username true) (chat s))
      as (_ & ? & ? & ?). done.
  - repeat split; try done. intros H. by destruct (H message).
Qed.

(** X7. Once an [error] event has set the store's [error], no later inbound
    event other than another [error] changes it: nothing that arrives
    clears an error. No inbound event at all changes [currentRoom] or
    [isLoading]. *)
Theorem inbound_events_never_clear_error captured (evs : list ChatEvent) s (message : string) :
  Forall (λ ev, ∀ other, ev ≠ error other) evs →
  let s' := fold_left (λ acc ev, deliver captured ev acc) evs
              (deliver captured (error message) s) in
  ChatStore.error (chat s') = Some message ∧
  currentRoom (chat s') = currentRoom (chat s) ∧
  isLoading (chat s') = isLoading (chat s).
Proof.
  intros Hevs s'. subst s'.
  assert (∀ s0, ChatStore.error (chat (fold_left (λ acc ev, deliver captured ev acc) evs s0))
                = ChatStore.error (chat s0) ∧
                currentRoom (chat (fold_left (λ acc ev, deliver captured ev acc) evs s0))
                = currentRoom (chat s0) ∧
                isLoading (chat (fold_left (λ acc ev, deliver captured ev acc) evs s0))
                = isLoading (chat s0)) as Hfold.
  { induction evs as [|ev evs IH]; intros s0; [done|].
    apply Forall_cons in Hevs as [Hev Hevs]. cbn [fold_left].
    destruct (IH Hevs (deliver captured ev s0)) as (-> & -> & ->).
    destruct (deliver_frame captured ev s0) as (? & ? & He). by rewrite He. }
  destruct (Hfold (deliver captured (error message) s)) as (-> & -> & ->). done.
Qed.

Lemma inbound_events_never_clear_error_witness :
  let m := Message.mk "m1" "u1" "hi" "r1" "text" "t0" "ann" [] [] in
  let evs := [new_message m; user_typing "u2" "r1" "bob" true; room_messages []] in
  ChatStore.error
    (chat (fold_left (λ acc ev, deliver [] ev acc) evs
             (deliver [] (error "Room not found") initialStores)))
  = Some "Room not found".
Proof.
  intros m evs.
  destruct (inbound_events_never_clear_error [] evs initialStores "Room not found")
    as [H _]; [|exact H].
  repeat (apply Forall_cons; split; [intros other; discriminate|]). apply Forall_nil_2.
Defined.
End inbound_frame.

(** ** The provider's actions and its effect *)

Section chat_actions.
Import ChatActions.
Implicit Types (act : Action) (w : ChatContext.World).

Lemma emitToChat_cases (event : string) (data : SocketAPI.Payload) (a : SocketAPI.t) :
  (SocketAPI.is_connected (SocketAPI.chatSocket a) = false ∧
   SocketAPI.emitToChat event data a = a) ∨
  (SocketAPI.is_connected (SocketAPI.chatSocket a) = true ∧
   SocketAPI.emitToChat event data a
   = SocketAPI.with_wire
       (SocketAPI.wire a ++ [SocketAPI.mkEmission SocketAPI.Chat event data]) a).
Proof. unfold SocketAPI.emitToChat. destruct (SocketAPI.is_connected _); auto. Qed.

Lemma request_is_emitToChat act :
  ∃ event data, ∀ a, request act a = SocketAPI.emitToChat event data a.
Proof. destruct act; by eexists _, _. Qed.

(** X8. The provider hands out twenty-one functions. For each of the
    seventeen requests it defines, whatever the logged-in state and the
    arguments: the stores are not touched; the singleton is left as it
    was or gets one more emission, on the chat channel; and with the
    chat socket absent or not connected the whole client is left as it
    was, whether the call returns or throws. Each of the four store
    functions it passes on writes the chat store alone: the user store
    and the singleton are left as they were. *)
Theorem action_sends_at_most_one_chat_request
    (user : option ChatContext.AuthUser) act (sact : StoreAction) w :
  let w' := fst (perform user act w) in
  ChatContext.stores w' = ChatContext.stores w ∧
  (ChatContext.api w' = ChatContext.api w ∨
   ∃ e, SocketAPI.em_channel e = SocketAPI.Chat ∧
        ChatContext.api w'
        = SocketAPI.with_wire (SocketAPI.wire (ChatContext.api w) ++ [e])
                              (ChatContext.api w)) ∧
  (SocketAPI.is_connected (SocketAPI.chatSocket (ChatContext.api w)) = false → w' = w) ∧
  ChatContext.api (perform_store sact w) = ChatContext.api w ∧
  ChatContext.users (ChatContext.stores (perform_store sact w))
  = ChatContext.users (ChatContext.stores w).
Proof.
  intros w'. subst w'. unfold perform.
  assert (ChatContext.api (perform_store sact w) = ChatContext.api w ∧
          ChatContext.users (ChatContext.stores (perform_store sact w))
          = ChatContext.users (ChatContext.stores w)) as Hstore by done.
  destruct (guarded act && negb (bool_decide (is_Some user))); [by auto|].
  destruct (ChatAPI.has_method (method act)); [|by auto].
  destruct (request_is_emitToChat act) as (event & data & Hreq).
  cbn [fst]. unfold ChatContext.on_api. cbn [ChatContext.stores ChatContext.api].
  rewrite Hreq. split; [done|].
  destruct (emitToChat_cases event data (ChatContext.api w)) as [[Hc ->]|[Hc ->]].
  - split; [by left|]. split; [|done]. intros _. by destruct w.
  - split; [right; eexists; split; [|reflexivity]; reflexivity|].
    split; [|done]. intros Hd. congruence.
Qed.

Lemma action_sends_at_most_one_chat_request_witness :
  let dropped :=
    ChatContext.mkWorld ChatContext.initialStores
      (fst (SocketAPI.on_chat_transport SocketAPI.TDisconnect
              (Online.api, SocketAPI.Pending))) in
  fst (perform (Some Online.user) (SendMessage "hi" "r1" None) dropped) = dropped.
Proof.
  intros dropped.
  destruct (action_sends_at_most_one_chat_request
              (Some Online.user) (SendMessage "hi" "r1" None) Reset dropped)
    as (_ & _ & H & _).
  apply H. reflexivity.
Defined.

(** The events [deliver] runs a handler for are the ones the effect
    subscribes to before it stops. *)
Lemma subscribed_matches_the_effect (ev : ChatContext.ChatEvent) :
  ChatContext.subscribed ev
  = bool_decide (ChatContext.event_name ev ∈ fst (run_effect true true)).
Proof. by destruct ev. Qed.

(** X9. An action ends in a [TypeError] exactly when it gets past its user
    guard and the [chatAPI] method it calls is one of the seven the
    class does not have; the client is then left as it was. All other
    calls return. *)
Theorem actions_on_missing_methods_throw (user : option ChatContext.AuthUser) act w :
  let missing := ["getOnlineUsers"; "getAllUsers"; "getUserProfile"; "searchUsers";
                  "getUserStatistics"; "updatePresence"; "setTypingStatus"] in
  let past_guard := negb (guarded act) || bool_decide (is_Some user) in
  perform user act w
  = if past_guard && bool_decide (method act ∈ missing)
    then (w, UseChat.TypeError ("chatAPI." +:+ method act +:+ " is not a function"))
    else (fst (perform user act w), UseChat.Returned).
Proof.
  intros missing past_guard. subst missing past_guard. unfold perform.
  destruct user as [u|]; destruct act; reflexivity.
Qed.

(** X10. The effect subscribes in order until it calls a method [chatAPI]
    lacks, and stops there with a [TypeError]. For the calls the effect
    makes that is [onOnlineUsers]: thirteen chat listeners are
    subscribed, those for [online_users], [all_users], [user_online] and
    [user_offline] are not, and the effect does not get to return its
    clean-up. With the guard unsatisfied nothing is subscribed. *)
Theorem effect_stops_at_the_presence_listeners (isAuthenticated isConnected : bool) :
  run_effect isAuthenticated isConnected
  = if isAuthenticated && isConnected
    then (["new_message"; "message_read"; "message_delivered"; "room_messages";
           "joined_room"; "left_room"; "user_joined_room"; "user_left_room";
           "user_typing"; "typing_users"; "room_created"; "available_rooms"; "error"],
          UseChat.TypeError "chatAPI.onOnlineUsers is not a function")
    else ([], UseChat.Returned).
Proof.
  unfold run_effect. destruct isAuthenticated, isConnected; reflexivity.
Qed.
End chat_actions.

(** ** The typing timer of the [useChat] hook *)

Section typing_timer.
Import TypingTimer.
Implicit Types (h : Hook) (user : option ChatContext.AuthUser).

Lemma cleared_pending h :
  one_pending h →
  match typingTimeoutRef h with
  | Some handle => clearTimeout handle (timeouts h)
  | None => timeouts h
  end = [].
Proof.
  intros [E|(handle & due & roomId & E & R)]; rewrite E.
  - by destruct (typingTimeoutRef h).
  - rewrite R. unfold clearTimeout. cbn [List.filter fst]. by rewrite Nat.eqb_refl.
Qed.

Lemma apply_one_pending user o h : one_pending h → one_pending (apply user o h).
Proof.
  intros Hh. destruct o as [now roomId|roomId|now]; cbn [apply].
  - unfold startTyping. destruct user; [|done].
    rewrite (cleared_pending h Hh). right. by eexists _, _, _.
  - unfold stopTyping. destruct user; [|done].
    rewrite (cleared_pending h Hh). by left.
  - unfold fire_due. destruct Hh as [E|(handle & due & roomId & E & R)].
    + left. cbn [timeouts]. by rewrite E.
    + cbn [timeouts typingTimeoutRef]. rewrite E. cbn [List.filter fst snd].
      destruct (due <=? now); cbn [negb]; [by left|]. right. by eexists _, _, _.
Qed.

Lemma run_one_pending user ops h : one_pending h → one_pending (run user ops h).
Proof.
  revert h; induction ops as [|o ops IH]; intros h Hh; [done|].
  unfold run in *. cbn [fold_left]. by apply IH, apply_one_pending.
Qed.

(** X11. However [startTyping] and [stopTyping] are called and whenever the
    event loop runs due time-outs, the hook has at most one time-out
    pending, and that one is the one its ref holds: a new
    [startTyping] always cancels the time-out of the one before. *)
Theorem typing_timer_at_most_one_pending user (ops : list op) (w : ChatContext.World) :
  let h := run user ops (initial w) in
  (length (timeouts h) ≤ 1)%nat ∧
  ∀ handle due roomId,
    (handle, due, roomId) ∈ timeouts h → typingTimeoutRef h = Some handle.
Proof.
  intros h.
  assert (one_pending h) as [E|(handle & due & roomId & E & R)]
    by (apply run_one_pending; by left).
  - rewrite E. split; [simpl; lia|]. intros ? ? ? Hin. by apply not_elem_of_nil in Hin.
  - rewrite E. split; [simpl; lia|]. intros ? ? ? Hin.
    apply list_elem_of_singleton in Hin. congruence.
Qed.




End typing_timer.

(** ** The socket singleton over time *)

Section socket_api_ops.
Import SocketAPI.
Implicit Types (a : t) (o : op).

Lemma apply_coherent o a : coherent a → coherent (apply o a).
Proof.
  unfold coherent.
  destruct a as [[[c b]|] ch [c1 c2 c3] el [hb|] tr tm wr];
    cbn [socket connectionState heartbeatInterval is_connected connected
         isConnected isConnecting];
    intros (H1 & H2 & H3); destruct o as [| | |ev|ev|event data|event data|];
    try destruct ev; try destruct c; try destruct ch as [[cc cb]|]; try destruct cc;
    try discriminate; simpl in *; try done;
    repeat split; try done; try (intros; congruence); auto.
Qed.

(** X13. From the initial singleton, through any sequence of [connect],
    [connectToChat], [disconnect], events of the sockets it holds,
    emissions and heartbeat ticks: [isConnected] says what the main
    socket's [connected] flag says, the heartbeat interval is set
    exactly while the main socket is connected, and [isConnecting] is
    never set together with [isConnected]. *)
Theorem heartbeat_runs_while_connected (ops : list op) :
  let a := run ops initial in
  isConnected (connectionState a) = is_connected (socket a) ∧
  bool_decide (is_Some (heartbeatInterval a)) = is_connected (socket a) ∧
  (isConnected (connectionState a) = true → isConnecting (connectionState a) = false).
Proof.
  intros a. subst a.
  assert (∀ a0, coherent a0 → coherent (run ops a0)) as H.
  { induction ops as [|o ops IH]; intros a0 Ha; [done|].
    unfold run in *. cbn [fold_left]. by apply IH, apply_coherent. }
  apply H. by repeat split.
Qed.

Lemma heartbeat_runs_while_connected_witness :
  let a := run [Connect; Transport TConnect; HeartbeatTick; Transport TDisconnect;
                Transport TConnect; Disconnect] initial in
  isConnected (connectionState a) = false ∧
  heartbeatInterval a = None ∧
  wire a = [mkEmission Main "connected" []; mkEmission Main "heartbeat" [];
            mkEmission Main "connected" []].
Proof.
  intros a.
  destruct (heartbeat_runs_while_connected
              [Connect; Transport TConnect; HeartbeatTick; Transport TDisconnect;
               Transport TConnect; Disconnect]) as (H1 & _ & _).
  split; [exact H1|]. by vm_compute.
Defined.

(** X14. [disconnect] drops both sockets, stops the heartbeat and clears the
    two flags; it keeps the recorded [error] and puts nothing on the
    wire. Doing it again changes nothing; after it every [emit] and
    [emitToChat] is dropped, and the next [connect()] builds a new
    socket and is pending. *)
Theorem disconnect_leaves_a_silent_singleton a :
  let d := disconnect a in
  socket d = None ∧ chatSocket d = None ∧ heartbeatInterval d = None ∧
  isConnected (connectionState d) = false ∧
  isConnecting (connectionState d) = false ∧
  error (connectionState d) = error (connectionState a) ∧
  wire d = wire a ∧
  disconnect d = d ∧
  (∀ event data, emit event data d = d ∧ emitToChat event data d = d) ∧
  snd (connect d) = Pending ∧
  transports (fst (connect d)) = transports a ++ [Main].
Proof.
  destruct a as [[so|] [ch|] [c1 c2 c3] el [hb|] tr tm wr]; by repeat split.
Qed.
End socket_api_ops.

(** ** The other validators *)

Section validators_more.
Import Validators.

Lemma string_length_chars (s : string) :
  String.length s = length (String.list_ascii_of_string s).
Proof. induction s as [|c s IH]; simpl; [done | by rewrite IH]. Qed.

Lemma js_length_of_chars (l : list Ascii.ascii) :
  js_length (String.string_of_list_ascii l) = Z.of_nat (length l).
Proof.
  unfold js_length. by rewrite string_length_chars, String.list_ascii_of_string_of_list_ascii.
Qed.

Lemma drop_white_space_length (l : list Ascii.ascii) :
  (length (drop_white_space l) ≤ length l)%nat.
Proof.
  induction l as [|c l IH]; simpl; [done|]. destruct (is_white_space c); simpl; lia.
Qed.

Lemma trim_length (s : string) : js_length (trim s) ≤ js_length s.
Proof.
  unfold trim. rewrite js_length_of_chars. unfold js_length.
  rewrite string_length_chars, length_rev.
  pose proof (drop_white_space_length (rev (drop_white_space (String.list_ascii_of_string s)))).
  pose proof (drop_white_space_length (String.list_ascii_of_string s)).
  rewrite length_rev in *. lia.
Qed.

(** X15. What [sanitizeInput] returns has no [<] and no [>] in it and is no
    longer than the input. *)
Theorem sanitizeInput_has_no_angle_brackets (input : string) :
  Forall (λ c, is_angle c = false) (String.list_ascii_of_string (sanitizeInput input)) ∧
  js_length (sanitizeInput input) ≤ js_length input.
Proof.
  unfold sanitizeInput. destruct (falsy input) eqn:Hf.
  - split; [constructor|]. unfold js_length. simpl. lia.
  - unfold remove_angles. rewrite js_length_of_chars.
    rewrite String.list_ascii_of_string_of_list_ascii. split.
    + apply Forall_forall. intros c Hc.
      apply list_elem_of_In, List.filter_In in Hc as [_ Hc]. by apply negb_true_iff.
    + pose proof (trim_length input) as Ht. unfold js_length in Ht at 1.
      rewrite string_length_chars in Ht.
      pose proof (List.filter_length_le (λ c, negb (is_angle c))
                    (String.list_ascii_of_string (trim input))). lia.
Qed.

(** Trimming comes before the brackets go, so the result can begin with
    white space that a second pass would strip. *)
Lemma sanitizeInput_not_idempotent :
  sanitizeInput "< a" = " a" ∧ sanitizeInput (sanitizeInput "< a") = "a".
Proof. by split. Qed.

(** X16. [validateLoginForm] accepts exactly a user name that is not blank
    with a password of six code units or more. The first error reported
    is the user name's when that is blank; an empty password is reported
    twice, as missing and as too short. *)
Theorem validateLoginForm_accepts (username password : string) :
  (isValid (validateLoginForm username password) = true ↔
   blank username = false ∧ 6 ≤ js_length password) ∧
  (blank username = true →
   errors (validateLoginForm username password) !! 0%nat = Some "Username is required") ∧
  (password = "" →
   ∃ before,
     errors (validateLoginForm username password)
     = before ++ ["Password is required"; "Password must be at least 6 characters"]).
Proof.
  unfold validateLoginForm, result_of, push_if. cbn [isValid errors].
  split; [|split].
  - destruct (blank username);
      destruct (falsy password || (js_length password =? 0)) eqn:He;
      destruct (Z.ltb_spec (js_length password) 6) as [Hl|Hl];
      cbn; split; try (intros [? ?]); try discriminate; try done; try lia.
    + exfalso. apply orb_true_iff in He as [He|He].
      * apply String.eqb_eq in He. subst password. unfold js_length in Hl. simpl in Hl. lia.
      * apply Z.eqb_eq in He. lia.
  - intros ->. by destruct (falsy password || _), (js_length password <? 6).
  - intros ->. cbn.
    destruct (blank username); [by exists ["Username is required"] | by exists []].
Qed.

Lemma validateLoginForm_accepts_witness :
  isValid (validateLoginForm "ann" "secret") = true ∧
  errors (validateLoginForm "  " "secret") !! 0%nat = Some "Username is required" ∧
  errors (validateLoginForm "ann" "")
  = ["Password is required"; "Password must be at least 6 characters"].
Proof.
  destruct (validateLoginForm_accepts "ann" "secret") as ([_ H1] & _ & _).
  destruct (validateLoginForm_accepts "  " "secret") as (_ & H2 & _).
  split; [apply H1; by vm_compute|]. split; [apply H2; by vm_compute|]. reflexivity.
Defined.

(** X17. [validateRoomName] accepts exactly a name that is not blank, has at
    most 50 code units, and consists of letters, digits, white space,
    hyphens and underscores. *)
Theorem validateRoomName_accepts (name : string) :
  isValid (validateRoomName name) = true ↔
  blank name = false ∧ js_length name ≤ 50 ∧
  Forall (λ c, is_room_name_char c = true) (String.list_ascii_of_string name).
Proof.
  unfold validateRoomName, result_of, push_if, room_name_pattern. cbn [isValid].
  assert (Forall (λ c, is_room_name_char c = true) (String.list_ascii_of_string name)
          ↔ forallb is_room_name_char (String.list_ascii_of_string name) = true) as ->.
  { rewrite Forall_forall, List.forallb_forall. by setoid_rewrite list_elem_of_In. }
  destruct (blank name) eqn:Hb; destruct (Z.ltb_spec 50 (js_length name)) as [Hl|Hl];
    destruct (forallb is_room_name_char (String.list_ascii_of_string name)) eqn:Hf;
    destruct (falsy name) eqn:Hn; cbn;
    split; try (intros (? & ? & ?)); try discriminate; try done; try lia.
  all: try (unfold blank in Hb; rewrite Hn in Hb; discriminate).
Qed.

Lemma validateRoomName_accepts_witness :
  isValid (validateRoomName "team room-1_a") = true ∧
  isValid (validateRoomName "a.b") = false.
Proof.
  destruct (validateRoomName_accepts "team room-1_a") as [_ H].
  split; [|reflexivity]. apply H. split; [by vm_compute|]. split; [by vm_compute|].
  apply Forall_forall. intros c Hc. apply list_elem_of_In in Hc.
  repeat (destruct Hc as [<-|Hc]; [reflexivity|]). destruct Hc.
Defined.
End validators_more.

(** ** The authentication provider *)

Section auth.
Import Auth.
Implicit Types (p : Provider) (o : op).

Lemma apply_consistent o p : consistent p → consistent (apply o p).
Proof.
  unfold consistent. intros [Hf Ht].
  destruct o as [ev|username password|username email password| |token| |]; cbn [apply].
  - destruct ev; cbn; (split; [done|]); try (intros u [= <-]; cbn); try done.
    + unfold stored_token_or_empty. cbn. by destruct (String.eqb token "") eqn:E;
        [apply String.eqb_eq in E|].
    + unfold stored_token_or_empty. cbn. by destruct (String.eqb token "") eqn:E;
        [apply String.eqb_eq in E|].
  - done.
  - done.
  - done.
  - done.
  - done.
  - unfold on_mount. destruct (authToken p) as [token|]; [|done].
    by destruct (String.eqb token "").
Qed.

(** X18. From a fresh provider, whatever token the browser has stored and
    whatever the socket's state, through any sequence of inbound events
    and calls of the provider's functions: [isAuthenticated] is set
    exactly when there is a user, and the user's token is the token in
    local storage (the empty string if there is none). *)
Theorem auth_flag_and_token_follow_the_user
    (ops : list op) (stored : option string) (a : SocketAPI.t) :
  let p := run ops (mkProvider initialState stored a) in
  isAuthenticated (state p) = bool_decide (is_Some (user (state p))) ∧
  ∀ u, user (state p) = Some u → ChatContext.au_token u = stored_token_or_empty p.
Proof.
  intros p. subst p.
  assert (∀ p0, consistent p0 → consistent (run ops p0)) as H.
  { induction ops as [|o ops IH]; intros p0 Hp; [done|].
    unfold run in *. cbn [fold_left]. by apply IH, apply_consistent. }
  apply H. split; [done|]. intros u Hu. discriminate.
Qed.

Lemma auth_flag_and_token_follow_the_user_witness :
  let p := run [Mount; Event (authenticated "u1" "ann" "ann@example.org");
                Event logged_out; Event (logged_in "u2" "bob" "bob@example.org" "tok2")]
               (mkProvider initialState (Some "tok1") Online.api) in
  isAuthenticated (state p) = true ∧
  user (state p) = Some (ChatContext.mkAuthUser "u2" "bob" "bob@example.org" "tok2") ∧
  authToken p = Some "tok2".
Proof.
  intros p.
  destruct (auth_flag_and_token_follow_the_user
              [Mount; Event (authenticated "u1" "ann" "ann@example.org");
               Event logged_out; Event (logged_in "u2" "bob" "bob@example.org" "tok2")]
              (Some "tok1") Online.api) as [H _].
  subst p. split; [rewrite H; by vm_compute|]. by vm_compute.
Defined.

(** X19. [useAuth().login]. A form that does not validate ends the call in a
    [TypeError], the provider's value having no [setError], and leaves
    the provider as it was. A valid form sets [isLoading], clears
    [error] and keeps the user; the [login] request goes on the wire
    only if the main socket is connected, and is dropped otherwise, with
    [isLoading] left set. *)
Theorem useAuth_login_outcomes (username password : string) p :
  (Validators.isValid (Validators.validateLoginForm username password) = false →
   useAuth_login username password p
   = (p, UseChat.TypeError "authContext.setError is not a function")) ∧
  (Validators.isValid (Validators.validateLoginForm username password) = true →
   let p' := fst (useAuth_login username password p) in
   snd (useAuth_login username password p) = UseChat.Returned ∧
   state p' = mkState (user (state p)) (isAuthenticated (state p)) true None ∧
   authToken p' = authToken p ∧
   api p'
   = if SocketAPI.is_connected (SocketAPI.socket (api p))
     then SocketAPI.with_wire
            (SocketAPI.wire (api p)
               ++ [SocketAPI.mkEmission SocketAPI.Main "login"
                     [("username", SocketAPI.VStr username);
                      ("password", SocketAPI.VStr password)]])
            (api p)
     else api p).
Proof.
  unfold useAuth_login. split; intros ->; cbn [negb]; [reflexivity|].
  cbn. unfold SocketAPI.login, SocketAPI.emit.
  by destruct (SocketAPI.is_connected _).
Qed.

Lemma useAuth_login_outcomes_witness :
  let fresh := mkProvider initialState None SocketAPI.initial in
  useAuth_login "ann" "12345" fresh
  = (fresh, UseChat.TypeError "authContext.setError is not a function") ∧
  fst (useAuth_login "ann" "secret" fresh)
  = mkProvider (mkState None false true None) None SocketAPI.initial.
Proof.
  intros fresh.
  destruct (useAuth_login_outcomes "ann" "12345" fresh) as [H1 _].
  destruct (useAuth_login_outcomes "ann" "secret" fresh) as [_ H2].
  split; [apply H1; reflexivity|].
  destruct H2 as (_ & Hs & Ht & Ha); [reflexivity|].
  destruct (fst (useAuth_login "ann" "secret" fresh)) as [s t a].
  cbn in Hs, Ht, Ha. by subst.
Defined.
End auth.

(** ** The reducer-based provider over time *)

Section provider_ops.
Import ChatProvider.
Implicit Types (p : Provider) (o : op) (r : string).

Lemma joinRoom_frame now r p :
  ∃ p1, joinRoom (Some ()) (Some "user") now r p = Done p1 ∧
        messages (state p1) = messages (state p) ∧
        unreadCounts (state p1) = <[r := Number 0]> (unreadCounts (state p)).
Proof. by eexists. Qed.

Lemma leaveRoom_frame now r p :
  ∃ p1, leaveRoom (Some ()) (Some "user") now r p = Done p1 ∧
        messages (state p1) = messages (state p) ∧
        unreadCounts (state p1) = unreadCounts (state p).
Proof.
  unfold leaveRoom. destruct (activeRoom (state p)) as [[i|room]|]; try by eexists.
  destruct (String.eqb i r); by eexists.
Qed.

(** X20. Whatever the provider starts with, a sequence of [message:new]
    events and [joinRoom] / [leaveRoom] calls in which no message is for
    a room named like a property of [Object.prototype] runs through
    without an exception, and afterwards the [messages] object holds for
    a room what it held before followed by the messages that arrived for
    that room, each once per arrival and in the order of arrival:
    nothing is dropped, reordered or merged. *)
Theorem ledger_is_arrivals_in_order (ops : list op) p r :
  Forall (λ m, inherited (roomId m) = false) (arrivals ops) →
  ∃ p', run ops p = Done p' ∧
        ledger p' r
        = ledger p r ++ List.filter (λ m, String.eqb (roomId m) r) (arrivals ops).
Proof.
  revert p; induction ops as [|o ops IH]; intros p Hops.
  - exists p. split; [done|]. simpl. by rewrite app_nil_r.
  - destruct o as [now message|now joined|now left]; cbn [run apply arrivals omap] in *.
    + apply Forall_cons in Hops as [Hm Hops].
      destruct (on_message_new_done now message p (or_introl Hm))
        as (p1 & -> & Hmsg & _). cbn [and_then].
      destruct (IH p1 Hops) as (p' & -> & Hl). exists p'. split; [done|].
      rewrite Hl. unfold ledger at 1. rewrite Hmsg.
      change (arrivals (MessageNew now message :: ops)) with (message :: arrivals ops).
      cbn [List.filter].
      destruct (String.eqb_spec (roomId message) r) as [E|Hne].
      * subst r. rewrite lookup_insert_eq. cbn [default from_option].
        unfold Datatypes.id. by rewrite <- app_assoc.
      * by rewrite lookup_insert_ne.
    + destruct (joinRoom_frame now joined p) as (p1 & -> & Hmsg & _). cbn [and_then].
      destruct (IH p1 Hops) as (p' & -> & Hl). exists p'. split; [done|].
      rewrite Hl. unfold ledger. by rewrite Hmsg.
    + destruct (leaveRoom_frame now left p) as (p1 & -> & Hmsg & _). cbn [and_then].
      destruct (IH p1 Hops) as (p' & -> & Hl). exists p'. split; [done|].
      rewrite Hl. unfold ledger. by rewrite Hmsg.
Qed.

Lemma ledger_is_arrivals_in_order_witness :
  let m1 := mkMessage "m1" "r1" "u2" "hi" "t1" in
  let m2 := mkMessage "m2" "r2" "u3" "yo" "t2" in
  let m3 := mkMessage "m3" "r1" "u2" "bye" "t3" in
  let ops := [MessageNew "t1" m1; Join "t1" "r1"; MessageNew "t2" m2;
              MessageNew "t3" m3; Leave "t4" "r1"] in
  ∃ p', run ops (mkProvider initialState []) = Done p' ∧ ledger p' "r1" = [m1; m3].
Proof.
  intros m1 m2 m3 ops.
  destruct (ledger_is_arrivals_in_order ops (mkProvider initialState []) "r1")
    as (p' & Hrun & Hl).
  - repeat (apply Forall_cons; split; [reflexivity|]). apply Forall_nil_2.
  - exists p'. split; [exact Hrun|]. rewrite Hl. reflexivity.
Defined.



End provider_ops.

(** ** Message groups *)

Section message_groups_facts.
Context {M : Type} (senderId : M → string) (late : M → M → bool).
Implicit Types (st : @GroupLoop M) (l : list M).

Lemma nonempty_length l : (0 <? Z.of_nat (length l)) = true ↔ l ≠ [].
Proof. destruct l; simpl; split; try done. Qed.

Lemma group_loop_invariant l st (seen : list M) :
  concat (groups st) ++ currentGroup st = seen →
  Forall (λ g, g ≠ []) (groups st) →
  Forall (λ g, ∀ x y, x ∈ g → y ∈ g → senderId x = senderId y) (groups st) →
  match previous st with
  | None => currentGroup st = []
  | Some prev => currentGroup st ≠ [] ∧ ∀ x, x ∈ currentGroup st → senderId x = senderId prev
  end →
  let st' := fold_left (group_step senderId late) l st in
  concat (groups st') ++ currentGroup st' = seen ++ l ∧
  Forall (λ g, g ≠ []) (groups st') ∧
  Forall (λ g, ∀ x y, x ∈ g → y ∈ g → senderId x = senderId y) (groups st') ∧
  (∀ x y, x ∈ currentGroup st' → y ∈ currentGroup st' → senderId x = senderId y).
Proof.
  revert st seen; induction l as [|m l IH]; intros st seen Hcat Hne Huni Hprev.
  - simpl. rewrite app_nil_r. repeat split; try done.
    intros x y Hx Hy. destruct (previous st) as [prev|].
    + destruct Hprev as [_ Hs]. by rewrite (Hs x Hx), (Hs y Hy).
    + rewrite Hprev in Hx. by apply not_elem_of_nil in Hx.
  - cbn [fold_left]. replace (seen ++ m :: l) with ((seen ++ [m]) ++ l)
      by (by rewrite <- app_assoc).
    apply IH; unfold group_step.
    + destruct (previous st) as [prev|].
      * destruct (negb _ || late prev m); cbn [groups currentGroup].
        -- destruct Hprev as [Hc _]. apply nonempty_length in Hc as ->.
           rewrite concat_app. simpl. rewrite app_nil_r. by rewrite Hcat.
        -- by rewrite app_assoc, Hcat.
      * cbn [groups currentGroup]. rewrite Hprev in *. cbn. by rewrite <- Hcat, app_nil_r.
    + destruct (previous st) as [prev|].
      * destruct (negb _ || late prev m); cbn [groups]; [|done].
        destruct Hprev as [Hc _]. pose proof Hc as Hc'. apply nonempty_length in Hc' as ->.
        apply Forall_app. split; [done|]. by apply Forall_singleton.
      * cbn [groups]. by rewrite Hprev.
    + destruct (previous st) as [prev|].
      * destruct (negb _ || late prev m); cbn [groups]; [|done].
        destruct Hprev as [Hc Hs]. apply nonempty_length in Hc as ->.
        apply Forall_app. split; [done|]. apply Forall_singleton.
        intros x y Hx Hy. by rewrite (Hs x Hx), (Hs y Hy).
      * cbn [groups]. by rewrite Hprev.
    + destruct (previous st) as [prev|].
      * destruct (negb (String.eqb (senderId m) (senderId prev))) eqn:Hsame;
          cbn [orb previous currentGroup].
        -- split; [done|]. intros x Hx. by apply list_elem_of_singleton in Hx as ->.
        -- apply negb_false_iff, String.eqb_eq in Hsame.
           destruct (late prev m); cbn [previous currentGroup].
           ++ split; [done|]. intros x Hx. by apply list_elem_of_singleton in Hx as ->.
           ++ destruct Hprev as [Hc Hs]. split; [by destruct (currentGroup st)|].
              intros x Hx. apply elem_of_app in Hx as [Hx|Hx].
              ** by rewrite (Hs x Hx).
              ** by apply list_elem_of_singleton in Hx as ->.
      * cbn [previous currentGroup]. split; [done|].
        intros x Hx. by apply list_elem_of_singleton in Hx as ->.
Qed.

(** X22. [getMessageGroups] cuts the list it is given into consecutive
    groups: the groups in order put together are the list again, no
    group is empty, and all messages of a group have one sender. *)
Theorem getMessageGroups_partitions (messages : list M) :
  concat (getMessageGroups senderId late messages) = messages ∧
  Forall (λ g, g ≠ []) (getMessageGroups senderId late messages) ∧
  Forall (λ g, ∀ x y, x ∈ g → y ∈ g → senderId x = senderId y)
         (getMessageGroups senderId late messages).
Proof.
  unfold getMessageGroups.
  destruct (group_loop_invariant messages (mkLoop [] [] None) [])
    as (Hcat & Hne & Huni & Hcur); try done.
  set (st := fold_left _ _ _) in *. simpl in Hcat.
  destruct (0 <? Z.of_nat (length (currentGroup st))) eqn:E.
  - apply nonempty_length in E. rewrite concat_app. simpl. rewrite app_nil_r.
    split; [done|]. split; apply Forall_app; (split; [done|]); by apply Forall_singleton.
  - assert (currentGroup st = []) as Hc.
    { destruct (currentGroup st); [done|discriminate]. }
    rewrite Hc, app_nil_r in Hcat. done.
Qed.
End message_groups_facts.
